(** * superquote-tracker: the polling / reconciliation core of
      [superquote_checker.py], embedded in Rocq.

    Conventions of the embedding.
    - A Python [str] is represented by its UTF-8 encoding, a Rocq [string]
      (a list of bytes); [s.encode('utf-8')] is then the identity.
    - A Python [dict] is an insertion-ordered association list with the
      semantics of [d[k] = v], [d.get(k)], [k in d] and [d.pop(k)].
    - The bet dictionaries are objects: [active_superquotes] and [history]
      hold references into a heap, so that the aliasing created by
      [self.active_superquotes[bet_id] = data; self.history[bet_id] = data]
      is part of the model.
    - Exceptions are explicit: a step returns [None] (normal completion) or
      [Some e] together with the state reached when [e] was raised. *)

From Stdlib Require Import ZArith List String Ascii Bool Lia.
From stdpp Require Import base list strings pretty.
Import ListNotations.

Set Warnings "-register-all,-clear-no-such-hyp".

Local Open Scope string_scope.
Local Open Scope list_scope.

(** ** hashlib.md5 (RFC 1321), on 32-bit words carried by [Z] *)

Module MD5.
Local Open Scope Z_scope.

Definition wrap32 (x : Z) : Z := Z.land x 4294967295.

Definition not32 (x : Z) : Z := Z.lxor x 4294967295.

Definition rotl32 (x c : Z) : Z :=
  wrap32 (Z.lor (Z.shiftl x c) (Z.shiftr x (32 - c))).

Definition K : list Z :=
  [ 3614090360; 3905402710;  606105819; 3250441966;
    4118548399; 1200080426; 2821735955; 4249261313;
    1770035416; 2336552879; 4294925233; 2304563134;
    1804603682; 4254626195; 2792965006; 1236535329;
    4129170786; 3225465664;  643717713; 3921069994;
    3593408605;   38016083; 3634488961; 3889429448;
     568446438; 3275163606; 4107603335; 1163531501;
    2850285829; 4243563512; 1735328473; 2368359562;
    4294588738; 2272392833; 1839030562; 4259657740;
    2763975236; 1272893353; 4139469664; 3200236656;
     681279174; 3936430074; 3572445317;   76029189;
    3654602809; 3873151461;  530742520; 3299628645;
    4096336452; 1126891415; 2878612391; 4237533241;
    1700485571; 2399980690; 4293915773; 2240044497;
    1873313359; 4264355552; 2734768916; 1309151649;
    4149444226; 3174756917;  718787259; 3951481745 ].

Definition SHIFT : list Z :=
  [ 7; 12; 17; 22; 7; 12; 17; 22; 7; 12; 17; 22; 7; 12; 17; 22;
    5;  9; 14; 20; 5;  9; 14; 20; 5;  9; 14; 20; 5;  9; 14; 20;
    4; 11; 16; 23; 4; 11; 16; 23; 4; 11; 16; 23; 4; 11; 16; 23;
    6; 10; 15; 21; 6; 10; 15; 21; 6; 10; 15; 21; 6; 10; 15; 21 ].

Definition bytes_of_string (s : string) : list Z :=
  map (fun a => Z.of_N (N_of_ascii a)) (list_ascii_of_string s).

(** [n] little-endian bytes of [x]. *)
Fixpoint le_bytes (n : nat) (x : Z) : list Z :=
  match n with
  | O => []
  | S n' => Z.land x 255 :: le_bytes n' (Z.shiftr x 8)
  end.

(** Padding: a 1 bit, zeros up to 56 mod 64, then the bit length on 64 bits. *)
Definition pad (msg : list Z) : list Z :=
  let len := Z.of_nat (length msg) in
  let zeros := Z.to_nat ((55 - len) mod 64) in
  msg ++ [128] ++ repeat 0 zeros ++ le_bytes 8 (Z.land (len * 8) 18446744073709551615).

Definition word_of_bytes (b0 b1 b2 b3 : Z) : Z :=
  Z.lor b0 (Z.lor (Z.shiftl b1 8) (Z.lor (Z.shiftl b2 16) (Z.shiftl b3 24))).

Fixpoint words (fuel : nat) (bs : list Z) : list Z :=
  match fuel, bs with
  | S f, b0 :: b1 :: b2 :: b3 :: rest => word_of_bytes b0 b1 b2 b3 :: words f rest
  | _, _ => []
  end.

Fixpoint blocks (fuel : nat) (ws : list Z) : list (list Z) :=
  match fuel, ws with
  | S f, _ :: _ => firstn 16 ws :: blocks f (skipn 16 ws)
  | _, _ => []
  end.

Definition round (M : list Z) (st : Z * Z * Z * Z) (i : nat) : Z * Z * Z * Z :=
  let '(A, B, C, D) := st in
  let '(F, g) :=
    if (i <? 16)%nat then
      (Z.lor (Z.land B C) (Z.land (not32 B) D), i)
    else if (i <? 32)%nat then
      (Z.lor (Z.land D B) (Z.land (not32 D) C), ((5 * i + 1) mod 16)%nat)
    else if (i <? 48)%nat then
      (Z.lxor (Z.lxor B C) D, ((3 * i + 5) mod 16)%nat)
    else
      (Z.lxor C (Z.lor B (not32 D)), ((7 * i) mod 16)%nat) in
  let F' := wrap32 (F + A + nth i K 0 + nth g M 0) in
  (D, wrap32 (B + rotl32 F' (nth i SHIFT 0)), B, C).

Definition process_block (st : Z * Z * Z * Z) (M : list Z) : Z * Z * Z * Z :=
  let '(a0, b0, c0, d0) := st in
  let '(A, B, C, D) := fold_left (round M) (seq 0 64) st in
  (wrap32 (a0 + A), wrap32 (b0 + B), wrap32 (c0 + C), wrap32 (d0 + D)).

Definition init : Z * Z * Z * Z := (1732584193, 4023233417, 2562383102, 271733878).

Definition digest (msg : list Z) : list Z :=
  let p := pad msg in
  let ws := words (length p) p in
  let '(a, b, c, d) := fold_left process_block (blocks (length ws) ws) init in
  le_bytes 4 a ++ le_bytes 4 b ++ le_bytes 4 c ++ le_bytes 4 d.

Definition hex_digit (x : Z) : ascii :=
  ascii_of_N (Z.to_N (if x <? 10 then 48 + x else 87 + x)).

Definition hex_of_bytes (bs : list Z) : string :=
  string_of_list_ascii
    (flat_map (fun b => [hex_digit (Z.shiftr b 4); hex_digit (Z.land b 15)]) bs).

(** [hashlib.md5(s.encode('utf-8')).hexdigest()] *)
Definition hexdigest (s : string) : string :=
  hex_of_bytes (digest (bytes_of_string s)).

End MD5.

(** ** Python values and dictionaries *)

(** The values [json.load] can return.  A number is carried as the text
    Python prints for it; [VDict] carries the members of a JSON object in
    document order. *)
Inductive pyval : Type :=
  | VNone
  | VBool (b : bool)
  | VNum (repr : string)
  | VStr (s : string)
  | VList (l : list pyval)
  | VDict (members : list (string * pyval)).

(** An insertion-ordered dictionary with string keys. *)
Abbreviation dict A := (list (string * A)) (only parsing).

Module PyDict.
Section Ops.
Context {A : Type}.

(** [d.get(k)] *)
Fixpoint get (d : dict A) (k : string) : option A :=
  match d with
  | [] => None
  | (k', v) :: d' => if String.eqb k' k then Some v else get d' k
  end.

(** [k in d] *)
Definition contains (d : dict A) (k : string) : bool :=
  match get d k with Some _ => true | None => false end.

(** [d[k] = v]: an existing key keeps its position, a new key goes last. *)
Fixpoint set (d : dict A) (k : string) (v : A) : dict A :=
  match d with
  | [] => [(k, v)]
  | (k', v') :: d' =>
      if String.eqb k' k then (k, v) :: d' else (k', v') :: set d' k v
  end.

(** The dictionary left by [d.pop(k)]. *)
Fixpoint remove (d : dict A) (k : string) : dict A :=
  match d with
  | [] => []
  | (k', v') :: d' => if String.eqb k' k then d' else (k', v') :: remove d' k
  end.

(** Iteration order of [for k in d]. *)
Definition keys (d : dict A) : list string := d.*1.

(** [dict(pairs)]: a repeated key keeps its first position and its last value. *)
Definition of_pairs (pairs : list (string * A)) : dict A :=
  fold_left (fun d kv => set d (fst kv) (snd kv)) pairs [].

End Ops.
End PyDict.

(** A bet dictionary. *)
Abbreviation pydict := (list (string * pyval)) (only parsing).

(** ** Constants & mappings *)

Definition SPORT_ICON_MAP : dict string :=
  [ ("1", "Soccer"); ("2", "Horse Racing"); ("3", "Cricket"); ("5", "Specials");
    ("7", "Golf"); ("8", "Rugby Union"); ("9", "Boxing"); ("10", "Formula 1");
    ("12", "Tennis"); ("14", "Snooker"); ("15", "Darts"); ("16", "Baseball");
    ("17", "Ice Hockey"); ("18", "Basketball"); ("19", "Rugby League");
    ("24", "Speedway"); ("36", "Aussie Rules"); ("38", "Cycling");
    ("78", "Handball"); ("83", "Futsal") ].

(** The sentinel of a field that was not resolved. *)
Definition NA : string := "N/A".

(** ** Bet information *)

(** The dictionary built by [_extract_bet_info]: its seven keys are fixed and
    every value is a [str]. *)
Record Info : Type := mkInfo {
  sport : string;
  details : string;
  match_ : string;
  market : string;
  odds_old : string;
  odds_new : string;
  timestamp : string
}.

(** The [dict] object an [Info] is, in the order of the literal. *)
Definition info_dict (i : Info) : pydict :=
  [ ("sport", VStr (sport i)); ("details", VStr (details i));
    ("match", VStr (match_ i)); ("market", VStr (market i));
    ("odds_old", VStr (odds_old i)); ("odds_new", VStr (odds_new i));
    ("timestamp", VStr (timestamp i)) ].

(** What a Playwright query on a container gives: an exception, no element
    ([count() == 0]), or the value read from the first element. *)
Inductive probe (A : Type) : Type :=
  | Raises
  | Absent
  | Present (x : A).
Arguments Raises {A}.
Arguments Absent {A}.
Arguments Present {A} x.

(** One element of [containers].  [boost_count] is the count of
    [.pbb-SuperBetBoost, .pbb-SuperBoostChevron] ([None]: the query raises);
    [icon] is the digit group of the icon URL when the pattern matches; the
    text fields are the stripped inner texts; [now] is the formatted clock. *)
Record container : Type := mkContainer {
  boost_count : option nat;
  icon : probe (option string);
  text_el : probe string;
  match_el : probe string;
  market_el : probe string;
  old_odds : probe string;
  new_odds : probe string;
  now : string
}.

(** [s.replace('.', ',')] *)
Fixpoint replace_dot (s : string) : string :=
  match s with
  | EmptyString => EmptyString
  | String c s' =>
      String (if Ascii.eqb c "."%char then ","%char else c) (replace_dot s')
  end.

(** The body of the [try] block: the statements run in order and the first
    exception leaves the fields set so far. *)
Fixpoint run_steps (steps : list (probe (Info -> Info))) (info : Info) : Info :=
  match steps with
  | [] => info
  | Raises :: _ => info
  | Absent :: rest => run_steps rest info
  | Present f :: rest => run_steps rest (f info)
  end.

Definition on_probe {A : Type} (p : probe A) (upd : A -> Info -> Info)
  : probe (Info -> Info) :=
  match p with
  | Raises => Raises
  | Absent => Absent
  | Present x => Present (upd x)
  end.

Definition set_sport (m : option string) (i : Info) : Info :=
  match m with
  | None => i
  | Some id =>
      let name := match PyDict.get SPORT_ICON_MAP id with
                  | Some n => n
                  | None => "Sport ID " +:+ id
                  end in
      mkInfo name (details i) (match_ i) (market i) (odds_old i) (odds_new i) (timestamp i)
  end.

Definition set_details (s : string) (i : Info) : Info :=
  mkInfo (sport i) s (match_ i) (market i) (odds_old i) (odds_new i) (timestamp i).

Definition set_match (s : string) (i : Info) : Info :=
  mkInfo (sport i) (details i) s (market i) (odds_old i) (odds_new i) (timestamp i).

Definition set_market (s : string) (i : Info) : Info :=
  mkInfo (sport i) (details i) (match_ i) s (odds_old i) (odds_new i) (timestamp i).

Definition set_odds_old (s : string) (i : Info) : Info :=
  mkInfo (sport i) (details i) (match_ i) (market i) (replace_dot s) (odds_new i) (timestamp i).

Definition set_odds_new (s : string) (i : Info) : Info :=
  mkInfo (sport i) (details i) (match_ i) (market i) (odds_old i) (replace_dot s) (timestamp i).

Definition _extract_bet_info (c : container) : Info :=
  let info := mkInfo "Unknown" NA NA NA NA NA (now c) in
  run_steps
    [ on_probe (icon c) set_sport;
      on_probe (text_el c) set_details;
      on_probe (match_el c) set_match;
      on_probe (market_el c) set_market;
      on_probe (old_odds c) set_odds_old;
      on_probe (new_odds c) set_odds_new ]
    info.

(** [_generate_id]: the MD5 of [match|market|details]. *)
Definition _generate_id (info : Info) : string :=
  let unique_str := match_ info +:+ "|" +:+ market info +:+ "|" +:+ details info in
  MD5.hexdigest unique_str.

(** ** The bot's state *)

(** A reference to a bet dictionary: its index in the heap. *)
Abbreviation loc := nat (only parsing).

Record State : Type := mkState {
  heap : list pydict;
  active_superquotes : dict loc;
  history : dict loc
}.

(** The object a reference points to.  Every reference held by a state of
    the bot is allocated; the default is never reached from such a state. *)
Definition deref (h : list pydict) (l : loc) : pydict := default [] (h !! l).

Inductive exn : Type :=
  | KeyError (k : string)
  | AttributeError
  | UnicodeDecodeError
  | PlaywrightError.

(** The Telegram messages.  [bet_id] labels the transition the message is
    about; the other arguments are the fields the message prints. *)
Inductive event : Type :=
  | NewSuperquote (bet_id : string) (data : Info)
  | SuperquoteEnded (bet_id : string) (match_ odds_old odds_new : pyval).

(** ** One cycle of [run] *)

(** What the body of the inner [while True] mutates. *)
Record Cycle : Type := mkCycle {
  bot : State;
  current_cycle_ids : list string;
  sent : list event
}.

(** A [for] loop whose body may raise: the exception ends the loop. *)
Fixpoint for_each {A : Type} (body : A -> Cycle -> option exn * Cycle)
    (l : list A) (w : Cycle) : option exn * Cycle :=
  match l with
  | [] => (None, w)
  | x :: l' =>
      match body x w with
      | (None, w') => for_each body l' w'
      | (Some e, w') => (Some e, w')
      end
  end.

(** [r['timestamp'] = ts; r['active'] = True] *)
Definition touch (ts : string) (r : pydict) : pydict :=
  PyDict.set (PyDict.set r "timestamp" (VStr ts)) "active" (VBool true).

(** [r['active'] = False] *)
Definition deactivate (r : pydict) : pydict :=
  PyDict.set r "active" (VBool false).

(** The statements of the loop body that follow the two guards, on the
    information [data] of the container.  [_send_telegram] and
    [_update_sheet] absorb their own failures. *)
Definition handle_bet (data : Info) (w : Cycle) : option exn * Cycle :=
  let bet_id := _generate_id data in
  let ids := current_cycle_ids w ++ [bet_id] in
  let st := bot w in
  if negb (PyDict.contains (active_superquotes st) bet_id) then
    let l := length (heap st) in
    let obj := PyDict.set (info_dict data) "active" (VBool true) in
    (None,
     mkCycle (mkState (heap st ++ [obj])
                      (PyDict.set (active_superquotes st) bet_id l)
                      (PyDict.set (history st) bet_id l))
             ids
             (sent w ++ [NewSuperquote bet_id data]))
  else
    match PyDict.get (history st) bet_id with
    | None => (Some (KeyError bet_id), mkCycle st ids (sent w))
    | Some l =>
        (None,
         mkCycle (mkState (alter (touch (timestamp data)) l (heap st))
                          (active_superquotes st)
                          (history st))
                 ids
                 (sent w))
    end.

(** The body of [for container in containers]. *)
Definition handle_container (c : container) (w : Cycle) : option exn * Cycle :=
  match boost_count c with
  | None => (Some PlaywrightError, w)
  | Some O => (None, w)
  | Some (S _) =>
      let data := _extract_bet_info c in
      if String.eqb (match_ data) NA || String.eqb (odds_new data) NA then (None, w)
      else handle_bet data w
  end.

(** The body of [for bid in removed_ids]. *)
Definition remove_bet (bid : string) (w : Cycle) : option exn * Cycle :=
  let st := bot w in
  match PyDict.get (active_superquotes st) bid with
  | None => (Some (KeyError bid), w)
  | Some bet =>
      let active' := PyDict.remove (active_superquotes st) bid in
      match PyDict.get (history st) bid with
      | None =>
          (Some (KeyError bid),
           mkCycle (mkState (heap st) active' (history st))
                   (current_cycle_ids w) (sent w))
      | Some l =>
          let heap' := alter deactivate l (heap st) in
          let w' := mkCycle (mkState heap' active' (history st))
                            (current_cycle_ids w) (sent w) in
          let b := deref heap' bet in
          match PyDict.get b "match" with
          | None => (Some (KeyError "match"), w')
          | Some m =>
              match PyDict.get b "odds_old" with
              | None => (Some (KeyError "odds_old"), w')
              | Some oo =>
                  match PyDict.get b "odds_new" with
                  | None => (Some (KeyError "odds_new"), w')
                  | Some on =>
                      (None,
                       mkCycle (bot w') (current_cycle_ids w)
                               (sent w ++ [SuperquoteEnded bid m oo on]))
                  end
              end
          end
      end
  end.

(** [removed_ids = [bid for bid in self.active_superquotes
                       if bid not in current_cycle_ids]] *)
Definition removed_ids (w : Cycle) : list string :=
  filter (fun bid => bid ∉ current_cycle_ids w)
         (PyDict.keys (active_superquotes (bot w))).

(** The diff step of one iteration of the inner loop, from the containers
    found on the page: the outcome, the messages sent and the state left. *)
Definition run_cycle (containers : list container) (st : State)
  : option exn * list event * State :=
  match for_each handle_container containers (mkCycle st [] []) with
  | (Some e, w1) => (Some e, sent w1, bot w1)
  | (None, w1) =>
      match for_each remove_bet (removed_ids w1) w1 with
      | (r, w2) => (r, sent w2, bot w2)
      end
  end.

(** ** Loading the history *)

(** What [json.load(f)] does on the file. *)
Inductive json_load : Type :=
  | JSONDecodeError
  | InvalidUTF8
  | Parsed (v : pyval).

(** The history file: absent, or present with the outcome of decoding it. *)
Inductive history_file : Type :=
  | NoFile
  | File (r : json_load).

Inductive log_record : Type :=
  | LogWarning (msg : string)
  | LogLoaded (records active : nat).

(** What [json.load] makes of a value read: at every depth an object
    becomes a [dict], in which a repeated key keeps its first position and
    its last value. *)
Fixpoint merge_keys (v : pyval) : pyval :=
  match v with
  | VList l => VList (map merge_keys l)
  | VDict m =>
      VDict (PyDict.of_pairs
               (map (fun kv => match kv with (k, x) => (k, merge_keys x) end) m))
  | _ => v
  end.

(** The [dict] built from the members of an object. *)
Definition merge_members (m : list (string * pyval)) : pydict :=
  PyDict.of_pairs (map (fun kv => match kv with (k, x) => (k, merge_keys x) end) m).

(** The values of [data] as dictionaries; [None] when one of them is not a
    dictionary, on which [v.get] raises [AttributeError]. *)
Fixpoint as_records (items : dict pyval) : option (list (string * pydict)) :=
  match items with
  | [] => Some []
  | (k, VDict m) :: rest =>
      match as_records rest with
      | Some rs => Some ((k, merge_members m) :: rs)
      | None => None
      end
  | _ :: _ => None
  end.

(** The references of the loaded records, allocated in order from [base]. *)
Fixpoint index_from (base : nat) (recs : list (string * pydict)) : dict loc :=
  match recs with
  | [] => []
  | (k, _) :: rest => (k, base) :: index_from (S base) rest
  end.

(** [v.get('active') is True] *)
Definition is_active (r : pydict) : bool :=
  match PyDict.get r "active" with
  | Some (VBool true) => true
  | _ => false
  end.

(** [_load_history]: the exception raised or the dictionary returned, the
    bot after the call (its [active_superquotes] may have been assigned) and
    the log records written. *)
Definition _load_history (f : history_file) (self : State)
  : (exn + dict loc) * State * list log_record :=
  match f with
  | NoFile => (inr [], self, [])
  | File JSONDecodeError =>
      (inr [], self, [LogWarning "History file is corrupted. Starting fresh."])
  | File InvalidUTF8 => (inl UnicodeDecodeError, self, [])
  | File (Parsed (VDict members)) =>
      match as_records (PyDict.of_pairs members) with
      | None => (inl AttributeError, self, [])
      | Some recs =>
          let data := index_from (length (heap self)) recs in
          let heap' := heap self ++ recs.*2 in
          let active :=
            filter (fun kl => is_active (deref heap' (snd kl)) = true) data in
          (inr data, mkState heap' active (history self),
           [LogLoaded (length data) (length active)])
      end
  | File (Parsed _) => (inl AttributeError, self, [])
  end.

(** The state management part of [__init__]. *)
Definition __init__ (f : history_file) : (exn + State) * list log_record :=
  let self := mkState [] [] [] in
  match _load_history f self with
  | (inl e, _, log) => (inl e, log)
  | (inr data, self', log) =>
      (inr (mkState (heap self') (active_superquotes self') data), log)
  end.

(** ** Saving the history *)

Module JSON.

Definition chr (n : nat) : string := String (ascii_of_nat n) EmptyString.

Definition quote : string := chr 34.
Definition backslash : string := chr 92.

Definition hex_digit (n : nat) : string :=
  chr (if (n <? 10)%nat then (48 + n)%nat else (87 + n)%nat).

(** The replacement of one character by [json]'s string encoder with
    [ensure_ascii=False]. *)
Definition escape_char (c : ascii) : string :=
  let n := nat_of_ascii c in
  if (n =? 34)%nat then backslash +:+ quote
  else if (n =? 92)%nat then backslash +:+ backslash
  else if (n =? 10)%nat then backslash +:+ "n"
  else if (n =? 13)%nat then backslash +:+ "r"
  else if (n =? 9)%nat then backslash +:+ "t"
  else if (n =? 8)%nat then backslash +:+ "b"
  else if (n =? 12)%nat then backslash +:+ "f"
  else if (n <? 32)%nat then backslash +:+ "u00" +:+ hex_digit (n / 16)%nat +:+ hex_digit (n mod 16)%nat
  else String c EmptyString.

Fixpoint escape (s : string) : string :=
  match s with
  | EmptyString => EmptyString
  | String c s' => escape_char c +:+ escape s'
  end.

Definition encode_str (s : string) : string := quote +:+ escape s +:+ quote.

Fixpoint spaces (n : nat) : string :=
  match n with
  | O => EmptyString
  | S n' => String " "%char (spaces n')
  end.

(** A line break followed by the indentation of nesting level [lvl]
    ([indent=2]). *)
Definition newline_indent (lvl : nat) : string := chr 10 +:+ spaces (2 * lvl)%nat.

Fixpoint join (sep : string) (l : list string) : string :=
  match l with
  | [] => EmptyString
  | [x] => x
  | x :: l' => x +:+ sep +:+ join sep l'
  end.

(** [json.dumps(v, indent=2, ensure_ascii=False)] at nesting level [lvl]. *)
Fixpoint encode (lvl : nat) (v : pyval) {struct v} : string :=
  match v with
  | VNone => "null"
  | VBool b => if b then "true" else "false"
  | VNum r => r
  | VStr s => encode_str s
  | VList [] => "[]"
  | VList l =>
      "[" +:+ newline_indent (S lvl)
      +:+ join ("," +:+ newline_indent (S lvl)) (map (encode (S lvl)) l)
      +:+ newline_indent lvl +:+ "]"
  | VDict [] => "{}"
  | VDict m =>
      "{" +:+ newline_indent (S lvl)
      +:+ join ("," +:+ newline_indent (S lvl))
               (map (fun kv => let '(k, x) := kv in
                               encode_str k +:+ ": " +:+ encode (S lvl) x) m)
      +:+ newline_indent lvl +:+ "}"
  end.

Definition dumps (v : pyval) : string := encode 0 v.

End JSON.

(** [self.history] as a value: each key with the dictionary it refers to. *)
Definition history_value (st : State) : pyval :=
  VDict ((fun kl => (fst kl, VDict (deref (heap st) (snd kl)))) <$> history st).

(** The file operations of [_save_history]: [open(..., 'w')] creates or
    truncates the file, then the text of [json.dump] reaches it byte by
    byte.  An [IOError] is logged and ends the operations where it occurs,
    which leaves the file as a stop of the process at that point does. *)
Inductive fs_op : Type :=
  | OpenTruncate
  | WriteByte (c : ascii).

(** The content of the history file; [None] when there is no file. *)
Definition disk : Type := option string.

Definition apply_op (d : disk) (op : fs_op) : disk :=
  match op with
  | OpenTruncate => Some EmptyString
  | WriteByte c => Some (default EmptyString d +:+ String c EmptyString)
  end.

Definition _save_history (st : State) : list fs_op :=
  OpenTruncate :: (WriteByte <$> list_ascii_of_string (JSON.dumps (history_value st))).

(** The file left when the process stops after [n] of the operations. *)
Definition crash_after (n : nat) (ops : list fs_op) (d : disk) : disk :=
  fold_left apply_op (take n ops) d.

(** ** The retry loop of [run] *)

(** Where the control is: at the head of [while attempt < 5] about to launch
    the browser, inside the inner [while True], or past the outer loop. *)
Inductive phase : Type :=
  | Launching
  | Polling
  | Exited.

Record Supervisor : Type := mkSupervisor {
  attempt : nat;
  where_ : phase
}.

(** The [except Exception] handler: [attempt += 1], sleep [30 * attempt],
    then the loop condition.  The sleeps are returned in seconds. *)
Definition on_error (s : Supervisor) : Supervisor * list nat :=
  let attempt' := (attempt s + 1)%nat in
  (mkSupervisor attempt' (if (attempt' <? 5)%nat then Launching else Exited),
   [(30 * attempt')%nat]).

(** One step.  [ok] tells whether the operation awaited in the current phase
    (the browser launch, or one whole cycle) completes without raising. *)
Definition sup_step (s : Supervisor) (ok : bool) : Supervisor * list nat :=
  match where_ s with
  | Exited => (s, [])
  | Launching => if ok then (mkSupervisor 0 Polling, []) else on_error s
  | Polling => if ok then (s, []) else on_error s
  end.

Definition sup_start : Supervisor := mkSupervisor 0 Launching.

Fixpoint sup_run (s : Supervisor) (oks : list bool) : Supervisor * list nat :=
  match oks with
  | [] => (s, [])
  | ok :: rest =>
      let '(s', sleeps) := sup_step s ok in
      let '(s'', sleeps') := sup_run s' rest in
      (s'', sleeps ++ sleeps')
  end.

(** ** Notions used to state the properties *)

(** The failures since the last success in a sequence of outcomes. *)
Definition trailing_failures (oks : list bool) : nat :=
  fold_left (fun n ok => if ok : bool then 0 else S n) oks 0.

(** The information of a container that passes both guards of the loop. *)
Definition candidate (c : container) : option Info :=
  match boost_count c with
  | Some (S _) =>
      let data := _extract_bet_info c in
      if String.eqb (match_ data) NA || String.eqb (odds_new data) NA
      then None else Some data
  | _ => None
  end.

(** The items of a cycle, in the order of [containers]. *)
Definition candidates (cs : list container) : list Info := omap candidate cs.

(** The items whose fingerprint is neither in [seen] nor carried by an
    earlier item of the list. *)
Fixpoint new_items (seen : list string) (ds : list Info) : list Info :=
  match ds with
  | [] => []
  | d :: ds' =>
      if decide (_generate_id d ∈ seen) then new_items seen ds'
      else d :: new_items (seen ++ [_generate_id d]) ds'
  end.

Definition added_ids (evs : list event) : list string :=
  omap (fun e => match e with NewSuperquote k _ => Some k | _ => None end) evs.

Definition ended_ids (evs : list event) : list string :=
  omap (fun e => match e with SuperquoteEnded k _ _ _ => Some k | _ => None end) evs.

(** The invariant of the Active Set and the History Store. *)
Definition active_iff_history (st : State) : Prop :=
  forall k : string,
    k ∈ PyDict.keys (active_superquotes st) <->
    exists l r, PyDict.get (history st) k = Some l /\ heap st !! l = Some r
                /\ PyDict.get r "active" = Some (VBool true).

(** The states of the bot between two cycles: after [__init__], and after
    the diff step of a cycle, however it ended. *)
Inductive between_cycles : State -> Prop :=
  | after_load (f : history_file) (st : State) (log : list log_record) :
      __init__ f = (inr st, log) -> between_cycles st
  | after_cycle (st : State) (cs : list container) (r : option exn)
      (evs : list event) (st' : State) :
      between_cycles st -> run_cycle cs st = (r, evs, st') -> between_cycles st'.

(** Well-formed states: the dictionaries have distinct keys, an active bet
    is the very object the history holds, references are allocated, two
    history keys never share an object, and the flag of a history record
    tells whether its key is active. *)
Record wf (st : State) : Prop := mk_wf {
  wf_active_keys : NoDup (PyDict.keys (active_superquotes st));
  wf_history_keys : NoDup (PyDict.keys (history st));
  wf_alias : forall k l,
      PyDict.get (active_superquotes st) k = Some l ->
      PyDict.get (history st) k = Some l;
  wf_alloc : forall k l,
      PyDict.get (history st) k = Some l -> l < length (heap st);
  wf_inj : forall k1 k2 l,
      PyDict.get (history st) k1 = Some l ->
      PyDict.get (history st) k2 = Some l -> k1 = k2;
  wf_flag : forall k l,
      PyDict.get (history st) k = Some l ->
      (is_active (deref (heap st) l) = true <->
       k ∈ PyDict.keys (active_superquotes st))
}.



(** The message that announces [d]. *)
Definition announce (d : Info) : event := NewSuperquote (_generate_id d) d.

(** [e] is the message that ends the bet [bid]. *)
Definition ends (bid : string) (e : event) : Prop :=
  exists m oo on, e = SuperquoteEnded bid m oo on.

(** The fields a record needs for the message that ends its bet. *)
Definition has_fields (r : pydict) : Prop :=
  is_Some (PyDict.get r "match")
  /\ is_Some (PyDict.get r "odds_old")
  /\ is_Some (PyDict.get r "odds_new").

(** Every active record has these fields, as the records written by the
    bot itself have. *)
Definition complete (st : State) : Prop :=
  forall k l, PyDict.get (active_superquotes st) k = Some l ->
              has_fields (deref (heap st) l).

(** ** Sample data *)

Definition t0 : string := "2024-01-01 10:00:00".
Definition t1 : string := "2024-01-01 10:05:00".

Definition info_a : Info :=
  mkInfo "Soccer" "Boost" "A vs B" "Winner" "1,50" "1,80" t0.

Definition info_a' : Info :=
  mkInfo "Unknown" "Boost" "A vs B" "Winner" "1,50" "2,00" t1.

Definition info_a2 : Info :=
  mkInfo "Soccer" "Boost" "A vs B" "Winner" "1,50" "2,00" t1.

(** A boosted bet on "A vs B" read at [t]. *)
Definition c_ab (new : string) (t : string) : container :=
  mkContainer (Some 1) (Present (Some "1")) (Present "Boost") (Present "A vs B")
              (Present "Winner") (Present "1.50") (Present new) t.

(** A boosted bet on "C vs D" read at [t]. *)
Definition c_cd (t : string) : container :=
  mkContainer (Some 1) (Present (Some "12")) (Present "Boost") (Present "C vs D")
              (Present "Winner") (Present "2.10") (Present "2.50") t.

(** A boosted bet whose market name is not on the page. *)
Definition c_no_market : container :=
  mkContainer (Some 1) (Present (Some "1")) (Present "Boost") (Present "A vs B")
              Absent (Present "1.50") (Present "1.80") t0.

(** A boosted bet whose boosted odds are not on the page. *)
Definition c_no_odds : container :=
  mkContainer (Some 1) (Present (Some "1")) (Present "Boost") (Present "A vs B")
              (Present "Winner") (Present "1.50") Absent t0.

Definition id_ab : string := "41f1775b7d0ed2017c214a2e9e679be2".
Definition id_cd : string := "065fd9310a33dcc7afd433ad0e4d5513".

Definition st_empty : State := mkState [] [] [].

(** The state after a first cycle that found the bet on "A vs B". *)
Definition st_ab : State :=
  mkState
    [ [ ("sport", VStr "Soccer"); ("details", VStr "Boost");
        ("match", VStr "A vs B"); ("market", VStr "Winner");
        ("odds_old", VStr "1,50"); ("odds_new", VStr "1,80");
        ("timestamp", VStr t0); ("active", VBool true) ] ]
    [ (id_ab, 0) ]
    [ (id_ab, 0) ].

Definition info_c : Info :=
  mkInfo "Tennis" "Boost" "C vs D" "Winner" "2,10" "2,50" t0.

(** The state after a first cycle that found "A vs B", then "C vs D". *)
Definition st_ac : State :=
  mkState
    [ [ ("sport", VStr "Soccer"); ("details", VStr "Boost");
        ("match", VStr "A vs B"); ("market", VStr "Winner");
        ("odds_old", VStr "1,50"); ("odds_new", VStr "1,80");
        ("timestamp", VStr t0); ("active", VBool true) ];
      [ ("sport", VStr "Tennis"); ("details", VStr "Boost");
        ("match", VStr "C vs D"); ("market", VStr "Winner");
        ("odds_old", VStr "2,10"); ("odds_new", VStr "2,50");
        ("timestamp", VStr t0); ("active", VBool true) ] ]
    [ (id_ab, 0); (id_cd, 1) ]
    [ (id_ab, 0); (id_cd, 1) ].

(** The state after a second cycle that found "C vs D", then "A vs B". *)
Definition st_ca : State :=
  mkState
    [ [ ("sport", VStr "Soccer"); ("details", VStr "Boost");
        ("match", VStr "A vs B"); ("market", VStr "Winner");
        ("odds_old", VStr "1,50"); ("odds_new", VStr "1,80");
        ("timestamp", VStr t1); ("active", VBool true) ];
      [ ("sport", VStr "Tennis"); ("details", VStr "Boost");
        ("match", VStr "C vs D"); ("market", VStr "Winner");
        ("odds_old", VStr "2,10"); ("odds_new", VStr "2,50");
        ("timestamp", VStr t1); ("active", VBool true) ] ]
    [ (id_ab, 0); (id_cd, 1) ]
    [ (id_ab, 0); (id_cd, 1) ].

(** The state after a third cycle that found nothing. *)
Definition st_gone : State :=
  mkState
    [ [ ("sport", VStr "Soccer"); ("details", VStr "Boost");
        ("match", VStr "A vs B"); ("market", VStr "Winner");
        ("odds_old", VStr "1,50"); ("odds_new", VStr "1,80");
        ("timestamp", VStr t1); ("active", VBool false) ];
      [ ("sport", VStr "Tennis"); ("details", VStr "Boost");
        ("match", VStr "C vs D"); ("market", VStr "Winner");
        ("odds_old", VStr "2,10"); ("odds_new", VStr "2,50");
        ("timestamp", VStr t1); ("active", VBool false) ] ]
    [ ]
    [ (id_ab, 0); (id_cd, 1) ].

Definition ended_ab : event :=
  SuperquoteEnded id_ab (VStr "A vs B") (VStr "1,50") (VStr "1,80").
Definition ended_cd : event :=
  SuperquoteEnded id_cd (VStr "C vs D") (VStr "2,10") (VStr "2,50").

Definition info_a_t1 : Info :=
  mkInfo "Soccer" "Boost" "A vs B" "Winner" "1,50" "1,80" t1.

(** The state after "A vs B" has ended and "C vs D" has been found. *)
Definition st_c : State :=
  mkState
    [ [ ("sport", VStr "Soccer"); ("details", VStr "Boost");
        ("match", VStr "A vs B"); ("market", VStr "Winner");
        ("odds_old", VStr "1,50"); ("odds_new", VStr "1,80");
        ("timestamp", VStr t0); ("active", VBool false) ];
      [ ("sport", VStr "Tennis"); ("details", VStr "Boost");
        ("match", VStr "C vs D"); ("market", VStr "Winner");
        ("odds_old", VStr "2,10"); ("odds_new", VStr "2,50");
        ("timestamp", VStr t0); ("active", VBool true) ] ]
    [ (id_cd, 1) ]
    [ (id_ab, 0); (id_cd, 1) ].

(** The state after "A vs B" has come back: it is the last key of
    [active_superquotes] and still the first key of [history]. *)
Definition st_c_a : State :=
  mkState
    [ [ ("sport", VStr "Soccer"); ("details", VStr "Boost");
        ("match", VStr "A vs B"); ("market", VStr "Winner");
        ("odds_old", VStr "1,50"); ("odds_new", VStr "1,80");
        ("timestamp", VStr t0); ("active", VBool false) ];
      [ ("sport", VStr "Tennis"); ("details", VStr "Boost");
        ("match", VStr "C vs D"); ("market", VStr "Winner");
        ("odds_old", VStr "2,10"); ("odds_new", VStr "2,50");
        ("timestamp", VStr t1); ("active", VBool true) ];
      [ ("sport", VStr "Soccer"); ("details", VStr "Boost");
        ("match", VStr "A vs B"); ("market", VStr "Winner");
        ("odds_old", VStr "1,50"); ("odds_new", VStr "1,80");
        ("timestamp", VStr t1); ("active", VBool true) ] ]
    [ (id_cd, 1); (id_ab, 2) ]
    [ (id_ab, 2); (id_cd, 1) ].

(** ** Further notions *)

(** A lowercase hexadecimal digit. *)
Definition is_hex (c : ascii) : bool :=
  existsb (Ascii.eqb c) (list_ascii_of_string "0123456789abcdef").

(** One of the queries of [_extract_bet_info] raises. *)
Definition extraction_raises (c : container) : Prop :=
  icon c = Raises \/ text_el c = Raises \/ match_el c = Raises
  \/ market_el c = Raises \/ old_odds c = Raises \/ new_odds c = Raises.

(** The string has no decimal point. *)
Definition no_dot (s : string) : Prop := "."%char ∉ list_ascii_of_string s.

(** A boosted bet whose market query raises. *)
Definition c_market_raises : container :=
  mkContainer (Some 1) (Present (Some "1")) (Present "Boost") (Present "A vs B")
              Raises (Present "1.50") (Present "1.80") t0.

(** The cycles one process performs on the pages [pages], one after the
    other on the same bot, whatever way each of them ends: the messages sent
    and the bot left. *)
Fixpoint run_cycles (pages : list (list container)) (st : State)
  : list event * State :=
  match pages with
  | [] => ([], st)
  | cs :: rest =>
      let '(_, evs, st1) := run_cycle cs st in
      let '(evs', st2) := run_cycles rest st1 in
      (evs ++ evs', st2)
  end.

(** Reading the messages about the bet [k], from [b = true] when the bet is
    announced and [b = false] when it is not: whether the bet is announced
    after them, or [None] when a message announces a bet that is announced
    already or ends a bet that is not. *)
Fixpoint track (k : string) (b : bool) (evs : list event) : option bool :=
  match evs with
  | [] => Some b
  | NewSuperquote k' _ :: rest =>
      if String.eqb k' k then (if b then None else track k true rest)
      else track k b rest
  | SuperquoteEnded k' _ _ _ :: rest =>
      if String.eqb k' k then (if b then track k false rest else None)
      else track k b rest
  end.

(** Every browser launch of the run succeeds: whenever the loop is about to
    launch the browser, the outcome read is a success. *)
Fixpoint launches_succeed (s : Supervisor) (oks : list bool) : bool :=
  match oks with
  | [] => true
  | ok :: rest =>
      match where_ s with Launching => ok | _ => true end
      && launches_succeed (sup_step s ok).1 rest
  end.

(** ** Configuration *)

(** What [_validate_config] reads: [os.getenv] of each variable ([None]
    when it is not set) and [os.path.exists(str(self.gs_creds_file))]. *)
Record Env : Type := mkEnv {
  TELEGRAM_BOT_TOKEN : option string;
  TELEGRAM_CHAT_IDS : option string;
  SUPERQUOTE_HISTORY_FILE : option string;
  HEALTHCHECK_URL : option string;
  GOOGLE_SHEETS_CREDENTIALS_FILE : option string;
  GOOGLE_SHEETS_SPREADSHEET_ID : option string;
  GOOGLE_SHEETS_WORKSHEET_NAME : option string;
  credentials_exist : bool
}.

(** The attributes [_validate_config] assigns. *)
Record Config : Type := mkConfig {
  telegram_token : option string;
  telegram_chat_ids : list string;
  history_file_name : string;
  healthcheck_url : option string;
  gs_creds_file : option string;
  gs_sheet_id : option string;
  gs_worksheet_name : string;
  enable_gsheets : bool
}.

(** [s.split(",")]: the pieces between the commas; never an empty list. *)
Fixpoint split_comma (s : string) : list string :=
  match s with
  | EmptyString => [EmptyString]
  | String c s' =>
      if Ascii.eqb c ","%char then EmptyString :: split_comma s'
      else match split_comma s' with
           | [] => [String c EmptyString]
           | p :: ps => String c p :: ps
           end
  end.

(** The truth value of an [Optional[str]]. *)
Definition truthy (o : option string) : bool :=
  match o with
  | Some (String _ _) => true
  | _ => false
  end.

Inductive config_error : Type :=
  | ValueError
  | IndexError.

Definition _validate_config (env : Env) : config_error + Config :=
  let cfg :=
    mkConfig (TELEGRAM_BOT_TOKEN env)
             (split_comma (default EmptyString (TELEGRAM_CHAT_IDS env)))
             (default "superquote_history.json" (SUPERQUOTE_HISTORY_FILE env))
             (HEALTHCHECK_URL env)
             (GOOGLE_SHEETS_CREDENTIALS_FILE env)
             (GOOGLE_SHEETS_SPREADSHEET_ID env)
             (default "Database" (GOOGLE_SHEETS_WORKSHEET_NAME env))
             (truthy (GOOGLE_SHEETS_CREDENTIALS_FILE env)
              && truthy (GOOGLE_SHEETS_SPREADSHEET_ID env)
              && credentials_exist env) in
  if negb (truthy (telegram_token cfg)) then inl ValueError
  else match telegram_chat_ids cfg with
       | [] => inl IndexError
       | first :: _ =>
           if negb (truthy (Some first)) then inl ValueError else inr cfg
       end.

(** [",".join(l)] *)
Fixpoint join_comma (l : list string) : string :=
  match l with
  | [] => EmptyString
  | x :: rest =>
      match rest with
      | [] => x
      | _ :: _ => x +:+ String ","%char (join_comma rest)
      end
  end.

(** An environment with a token and three chat ids, the second one empty
    and the third one with a leading blank. *)
Definition env_blank_id : Env :=
  mkEnv (Some "123:abc") (Some "1,, 2") None None None None None false.

(** The records [_save_history] dumps: each key of [history] with the
    dictionary it refers to. *)
Definition saved_records (st : State) : list (string * pydict) :=
  (fun kl => (kl.1, deref (heap st) kl.2)) <$> history st.


(** A dictionary as Python holds it: its keys are distinct, and so are the
    keys of the dictionaries inside its values. *)
Definition merged (rec : pydict) : Prop :=
  NoDup (PyDict.keys rec) /\ Forall (fun kv => merge_keys kv.2 = kv.2) rec.







(** * Properties *)

Example md5_empty : MD5.hexdigest "" = "d41d8cd98f00b204e9800998ecf8427e".
Proof. vm_compute. reflexivity. Qed.

Example md5_abc : MD5.hexdigest "abc" = "900150983cd24fb0d6963f7d28e17f72".
Proof. vm_compute. reflexivity. Qed.

Example md5_fox :
  MD5.hexdigest "The quick brown fox jumps over the lazy dog"
  = "9e107d9d372bb6826bd81d3542a419d6".
Proof. vm_compute. reflexivity. Qed.

Example md5_two_blocks :
  MD5.hexdigest "aaaaaaaaaaaaaaaaaaaaaaaaaaaaaaaaaaaaaaaaaaaaaaaaaaaaaaaa"
  = "3b0c8ac703f828b04c6c197006d17218".
Proof. vm_compute. reflexivity. Qed.

Example id_ab_is_fingerprint : _generate_id info_a = id_ab.
Proof. vm_compute. reflexivity. Qed.

Example id_cd_is_fingerprint : _generate_id info_c = id_cd.
Proof. vm_compute. reflexivity. Qed.

Example dumps_empty : JSON.dumps (VDict []) = "{}".
Proof. reflexivity. Qed.

Example dumps_nested :
  JSON.dumps (VDict [("k", VList [VNum "1"; VDict []; VBool true; VNone])])
  = "{" +:+ JSON.chr 10
    +:+ "  " +:+ JSON.quote +:+ "k" +:+ JSON.quote +:+ ": [" +:+ JSON.chr 10
    +:+ "    1," +:+ JSON.chr 10
    +:+ "    {}," +:+ JSON.chr 10
    +:+ "    true," +:+ JSON.chr 10
    +:+ "    null" +:+ JSON.chr 10
    +:+ "  ]" +:+ JSON.chr 10
    +:+ "}".
Proof. vm_compute. reflexivity. Qed.

Example escape_control :
  JSON.escape (String (ascii_of_nat 1) (String (ascii_of_nat 10) "a/b"))
  = JSON.backslash +:+ "u0001" +:+ JSON.backslash +:+ "na/b".
Proof. vm_compute. reflexivity. Qed.


(** ** Facts about dictionaries *)

Section DictFacts.
Context {A : Type}.
Implicit Types (d : dict A) (k : string) (v : A).

Lemma get_Some_elem d k v : PyDict.get d k = Some v -> k ∈ PyDict.keys d.
Proof.
  induction d as [|[k' v'] d IH]; simpl; [done|].
  destruct (String.eqb_spec k' k) as [->|Hne]; intros H.
  - apply list_elem_of_here.
  - apply list_elem_of_further, IH, H.
Qed.

Lemma get_None_not_elem d k : PyDict.get d k = None <-> k ∉ PyDict.keys d.
Proof.
  induction d as [|[k' v'] d IH]; simpl.
  - split; [intros _; apply not_elem_of_nil | done].
  - destruct (String.eqb_spec k' k) as [->|Hne].
    + split; [done|]. intros H. exfalso. apply H, list_elem_of_here.
    + rewrite IH. unfold PyDict.keys. csimpl. rewrite not_elem_of_cons.
      intuition congruence.
Qed.

Lemma elem_keys_get d k : k ∈ PyDict.keys d -> exists v, PyDict.get d k = Some v.
Proof.
  intros H. destruct (PyDict.get d k) as [v|] eqn:E; [eauto|].
  apply get_None_not_elem in E. done.
Qed.

Lemma contains_true d k : PyDict.contains d k = true <-> k ∈ PyDict.keys d.
Proof.
  unfold PyDict.contains. split.
  - destruct (PyDict.get d k) eqn:E; [|done]. intros _. eapply get_Some_elem, E.
  - intros [v ->]%elem_keys_get. done.
Qed.

Lemma contains_false d k : PyDict.contains d k = false <-> k ∉ PyDict.keys d.
Proof.
  rewrite <- contains_true. destruct (PyDict.contains d k); naive_solver.
Qed.

Lemma get_set_eq d k v : PyDict.get (PyDict.set d k v) k = Some v.
Proof.
  induction d as [|[k' v'] d IH]; simpl.
  - by rewrite String.eqb_refl.
  - destruct (String.eqb_spec k' k) as [->|Hne]; simpl.
    + by rewrite String.eqb_refl.
    + destruct (String.eqb_spec k' k); [done|]. apply IH.
Qed.

Lemma get_set_ne d k k' v : k <> k' -> PyDict.get (PyDict.set d k v) k' = PyDict.get d k'.
Proof.
  intros Hne. induction d as [|[k0 v0] d IH]; simpl.
  - destruct (String.eqb_spec k k'); done.
  - destruct (String.eqb_spec k0 k) as [->|Hne0]; simpl.
    + destruct (String.eqb_spec k k'); done.
    + destruct (String.eqb_spec k0 k'); [done|]. apply IH.
Qed.

Lemma keys_set_new d k v :
  k ∉ PyDict.keys d -> PyDict.keys (PyDict.set d k v) = PyDict.keys d ++ [k].
Proof.
  unfold PyDict.keys. induction d as [|[k' v'] d IH]; csimpl; [done|].
  rewrite not_elem_of_cons. intros [Hne Hnin].
  destruct (String.eqb_spec k' k); [congruence|]. csimpl. by rewrite IH.
Qed.

Lemma keys_set_old d k v :
  k ∈ PyDict.keys d -> PyDict.keys (PyDict.set d k v) = PyDict.keys d.
Proof.
  unfold PyDict.keys. induction d as [|[k' v'] d IH]; csimpl.
  - intros H. by apply elem_of_nil in H.
  - destruct (String.eqb_spec k' k) as [->|Hne]; csimpl; [done|].
    rewrite elem_of_cons. intros [->|H]; [done|]. by rewrite IH.
Qed.

Lemma elem_keys_set d k k' v :
  k' ∈ PyDict.keys (PyDict.set d k v) <-> k' = k \/ k' ∈ PyDict.keys d.
Proof.
  destruct (decide (k ∈ PyDict.keys d)) as [Hin|Hnin].
  - rewrite keys_set_old by done. split; [tauto|]. by intros [->|?].
  - rewrite keys_set_new by done. rewrite elem_of_app, list_elem_of_singleton. tauto.
Qed.

Lemma NoDup_keys_set d k v :
  NoDup (PyDict.keys d) -> NoDup (PyDict.keys (PyDict.set d k v)).
Proof.
  intros Hnd. destruct (decide (k ∈ PyDict.keys d)) as [Hin|Hnin].
  - by rewrite keys_set_old.
  - rewrite keys_set_new by done. apply NoDup_app. split; [done|].
    split; [|apply NoDup_singleton].
    intros x Hx ->%list_elem_of_singleton. done.
Qed.

Lemma set_id d k v : PyDict.get d k = Some v -> PyDict.set d k v = d.
Proof.
  induction d as [|[k' v'] d IH]; simpl; [done|].
  destruct (String.eqb_spec k' k) as [->|Hne].
  - by intros [= ->].
  - intros H. by rewrite IH.
Qed.



Lemma filter_ne_id (l : list string) k : k ∉ l -> filter (fun x => x <> k) l = l.
Proof.
  induction l as [|x l IH]; [done|].
  rewrite not_elem_of_cons. intros [Hne Hnin].
  rewrite filter_cons_True by done. by rewrite IH.
Qed.

Lemma keys_remove d k :
  NoDup (PyDict.keys d) ->
  PyDict.keys (PyDict.remove d k) = filter (fun x => x <> k) (PyDict.keys d).
Proof.
  unfold PyDict.keys. induction d as [|[k' v'] d IH]; csimpl; [done|].
  rewrite NoDup_cons. intros [Hnin Hnd].
  destruct (String.eqb_spec k' k) as [->|Hne].
  - rewrite filter_cons_False by naive_solver. by rewrite filter_ne_id.
  - rewrite filter_cons_True by done. csimpl. by rewrite IH.
Qed.

Lemma elem_keys_remove d k k' :
  NoDup (PyDict.keys d) ->
  k' ∈ PyDict.keys (PyDict.remove d k) <-> k' <> k /\ k' ∈ PyDict.keys d.
Proof.
  intros Hnd. rewrite keys_remove by done. rewrite list_elem_of_filter. tauto.
Qed.

Lemma NoDup_keys_remove d k :
  NoDup (PyDict.keys d) -> NoDup (PyDict.keys (PyDict.remove d k)).
Proof.
  intros Hnd. rewrite keys_remove by done. by apply NoDup_filter.
Qed.

Lemma get_remove_ne d k k' :
  k <> k' -> PyDict.get (PyDict.remove d k) k' = PyDict.get d k'.
Proof.
  intros Hne. induction d as [|[k0 v0] d IH]; simpl; [done|].
  destruct (String.eqb_spec k0 k) as [->|Hne0]; simpl.
  - destruct (String.eqb_spec k k'); done.
  - destruct (String.eqb_spec k0 k'); [done|]. apply IH.
Qed.

End DictFacts.

(** ** The fingerprint *)

(** C7: two items with the same [match], [market] and [details] have the
    same fingerprint, whatever their odds, sport and timestamp are: the
    fingerprint is a function of these three strings and of nothing else. *)
Theorem generate_id_identity_fields (i1 i2 : Info) :
  match_ i1 = match_ i2 -> market i1 = market i2 -> details i1 = details i2 ->
  _generate_id i1 = _generate_id i2
  /\ _generate_id i1
     = MD5.hexdigest (match_ i1 +:+ "|" +:+ market i1 +:+ "|" +:+ details i1).
Proof.
  intros Hm Hk Hd. unfold _generate_id. rewrite Hm, Hk, Hd. done.
Qed.

Lemma generate_id_identity_fields_witness :
  _generate_id info_a = _generate_id info_a'
  /\ _generate_id info_a = MD5.hexdigest "A vs B|Winner|Boost".
Proof.
  apply (generate_id_identity_fields info_a info_a'); reflexivity.
Defined.

(** ** The retry loop *)

Lemma sup_run_snoc s oks ok :
  sup_run s (oks ++ [ok])
  = ((sup_step (sup_run s oks).1 ok).1,
     (sup_run s oks).2 ++ (sup_step (sup_run s oks).1 ok).2).
Proof.
  revert s. induction oks as [|x oks IH]; intros s; simpl.
  - destruct (sup_step s ok) as [s' sl]. simpl. by rewrite app_nil_r.
  - destruct (sup_step s x) as [s1 sl1]. rewrite IH.
    destruct (sup_run s1 oks) as [s2 sl2]. simpl.
    destruct (sup_step s2 ok) as [s3 sl3]. simpl. by rewrite app_assoc.
Qed.

Lemma sup_run_app s l1 l2 :
  (sup_run s (l1 ++ l2)).1 = (sup_run (sup_run s l1).1 l2).1.
Proof.
  revert s. induction l1 as [|x l1 IH]; intros s; simpl; [done|].
  destruct (sup_step s x) as [s1 sl1]. specialize (IH s1).
  destruct (sup_run s1 (l1 ++ l2)) as [s2 sl2].
  destruct (sup_run s1 l1) as [s3 sl3]. simpl in *.
  by destruct (sup_run s3 l2).
Qed.

Lemma exited_absorbing s oks : where_ s = Exited -> sup_run s oks = (s, []).
Proof.
  intros Hs. induction oks as [|x oks IH]; simpl; [done|].
  unfold sup_step. rewrite Hs, IH. done.
Qed.

Lemma trailing_failures_snoc oks ok :
  trailing_failures (oks ++ [ok])
  = if ok then 0 else S (trailing_failures oks).
Proof. unfold trailing_failures. by rewrite fold_left_app. Qed.

Lemma trailing_failures_split oks :
  exists pre, oks = pre ++ replicate (trailing_failures oks) false.
Proof.
  induction oks as [|ok oks IH] using rev_ind.
  - by exists [].
  - rewrite trailing_failures_snoc. destruct ok.
    + exists (oks ++ [true]). simpl. by rewrite app_nil_r.
    + destruct IH as [pre Hpre]. exists pre.
      rewrite replicate_S_end, app_assoc. by rewrite <- Hpre.
Qed.

(** While the loop runs, [attempt] counts the failures since the last
    success; once it has exited, five failures in a row have occurred. *)
Lemma sup_run_invariant oks :
  let s := (sup_run sup_start oks).1 in
  (where_ s <> Exited ->
     attempt s = trailing_failures oks /\ attempt s < 5)
  /\ (where_ s = Polling -> attempt s = 0)
  /\ (where_ s = Exited ->
     exists pre post, oks = pre ++ replicate 5 false ++ post).
Proof.
  induction oks as [|ok oks IH] using rev_ind.
  - cbn. split; [intros _; split; [done|lia] | done].
  - rewrite sup_run_snoc, trailing_failures_snoc. cbn zeta in *.
    destruct (sup_run sup_start oks) as [s sl]. cbn [fst snd] in *.
    destruct IH as (IHrun & IHpoll & IHexit).
    unfold sup_step, on_error. destruct (where_ s) eqn:Hw.
    + destruct IHrun as [Ha Hlt]; [done|]. destruct ok; cbn [fst snd attempt where_].
      * split; [intros _; split; [done|lia] | done].
      * destruct (Nat.ltb_spec (attempt s + 1) 5) as [Hlt'|Hge].
        -- split; [intros _; lia | done].
        -- split; [done|]. split; [done|]. intros _.
           destruct (trailing_failures_split oks) as [pre Hpre].
           exists pre, []. rewrite app_nil_r.
           assert (trailing_failures oks = 4) as E by lia.
           rewrite E in Hpre. rewrite Hpre at 1.
           rewrite <- app_assoc. f_equal.
    + destruct IHrun as [Ha Hlt]; [done|]. specialize (IHpoll eq_refl).
      destruct ok; cbn [fst snd attempt where_].
      * rewrite Hw. split; [intros _; split; [lia|lia] | done].
      * rewrite IHpoll. cbn. split; [intros _; lia | done].
    + destruct IHexit as (pre & post & ->); [done|].
      cbn [fst snd]. rewrite Hw. split; [done|]. split; [done|]. intros _.
      exists pre, (post ++ [ok]). by rewrite <- !app_assoc.
Qed.

Lemma failures_reach_exit s n :
  where_ s <> Exited -> attempt s < 5 -> 5 <= attempt s + n ->
  where_ (sup_run s (replicate n false)).1 = Exited.
Proof.
  revert s. induction n as [|n IH]; intros s Hw Hlt Hge; [lia|].
  cbn [replicate sup_run].
  assert (sup_step s false = on_error s) as ->.
  { unfold sup_step. by destruct (where_ s). }
  unfold on_error.
  destruct (Nat.ltb_spec (attempt s + 1) 5) as [Hlt'|Hge'].
  - specialize (IH (mkSupervisor (attempt s + 1) Launching)).
    destruct (sup_run _ (replicate n false)) as [s2 sl2]. cbn [fst] in *.
    apply IH; cbn; [done|lia|lia].
  - rewrite exited_absorbing by done. done.
Qed.

Lemma exit_iff_five_failures oks :
  where_ (sup_run sup_start oks).1 = Exited
  <-> exists pre post, oks = pre ++ replicate 5 false ++ post.
Proof.
  split; [apply sup_run_invariant|].
  intros (pre & post & ->). rewrite !sup_run_app.
  pose proof (sup_run_invariant pre) as [Hrun _]. cbn zeta in Hrun.
  assert (where_ (sup_run (sup_run sup_start pre).1 (replicate 5 false)).1 = Exited)
    as He.
  { destruct (where_ (sup_run sup_start pre).1) eqn:Hw.
    - apply failures_reach_exit; [by rewrite Hw | by apply Hrun | lia].
    - apply failures_reach_exit; [by rewrite Hw | by apply Hrun | lia].
    - rewrite exited_absorbing by done. done. }
  by rewrite exited_absorbing.
Qed.

Lemma after_success oks :
  where_ (sup_run sup_start (oks ++ [true])).1 <> Exited ->
  (sup_run sup_start (oks ++ [true])).1 = mkSupervisor 0 Polling.
Proof.
  rewrite sup_run_snoc. cbn [fst].
  pose proof (sup_run_invariant oks) as (_ & Hpoll & _). cbn zeta in Hpoll.
  destruct (sup_run sup_start oks) as [[a w] sl]. cbn [fst where_ attempt] in *.
  unfold sup_step. cbn [where_]. destruct w; cbn [fst where_]; [done| |done].
  intros _. by rewrite Hpoll.
Qed.

Lemma replicate_failures_running n :
  n < 5 ->
  where_ (sup_run sup_start (replicate n false)).1 <> Exited
  /\ attempt (sup_run sup_start (replicate n false)).1 = n.
Proof.
  intros Hn.
  assert (where_ (sup_run sup_start (replicate n false)).1 <> Exited) as Hw.
  { intros (pre & post & E)%exit_iff_five_failures.
    apply (f_equal length) in E.
    rewrite !length_app, !length_replicate in E. lia. }
  split; [done|].
  destruct (sup_run_invariant (replicate n false)) as [Hrun _].
  destruct (Hrun Hw) as [-> _].
  clear. induction n as [|n IH]; [done|].
  by rewrite replicate_S_end, trailing_failures_snoc, IH.
Qed.

Lemma backoff_sleeps n :
  n <= 5 ->
  (sup_run sup_start (replicate n false)).2 = (fun k => 30 * k) <$> seq 1 n.
Proof.
  induction n as [|n IH]; intros Hn; [done|].
  rewrite replicate_S_end, sup_run_snoc. cbn [snd]. rewrite IH by lia.
  rewrite seq_S, fmap_app. f_equal.
  destruct (replicate_failures_running n) as [Hw Ha]; [lia|].
  unfold sup_step.
  destruct (where_ (sup_run sup_start (replicate n false)).1); [| |done];
    unfold on_error; cbn [snd]; rewrite Ha; cbn; do 2 f_equal; lia.
Qed.

(** C9, as the code has it: the retry loop of [run].  A failure is an
    exception that reaches the handler of the outer loop, from the browser
    launch or from a cycle; a success is a browser launch that succeeds or a
    cycle that completes.  After the n-th failure in a row the loop sleeps
    [30 * n] seconds; a success puts the counter back to 0, and it is the
    successful launch that does so: [attempt = 0] follows [_setup_browser],
    and a completed cycle finds the counter at 0.  The loop is left exactly
    when five failures in a row have occurred; four failures followed by a
    success leave it running.  A failed cycle comes after a successful
    launch, so it is always the first failure of its row: the loop sleeps 30
    seconds and launches the browser again. *)
Theorem supervisor_backoff_and_threshold :
  (forall oks, where_ (sup_run sup_start oks).1 <> Exited ->
     (sup_step (sup_run sup_start oks).1 false).2
       = [30 * trailing_failures (oks ++ [false])]
     /\ attempt (sup_step (sup_run sup_start oks).1 false).1
       = trailing_failures (oks ++ [false]))
  /\ (forall n, n <= 5 ->
     (sup_run sup_start (replicate n false)).2 = (fun k => 30 * k) <$> seq 1 n)
  /\ (forall oks, where_ (sup_run sup_start (oks ++ [true])).1 <> Exited ->
     attempt (sup_run sup_start (oks ++ [true])).1 = 0)
  /\ (forall oks, where_ (sup_run sup_start oks).1 = Exited
                  <-> exists pre post, oks = pre ++ replicate 5 false ++ post)
  /\ (forall oks, where_ (sup_run sup_start (oks ++ [true])).1 <> Exited ->
     where_ (sup_run sup_start
               ((oks ++ [true]) ++ replicate 4 false ++ [true])).1 = Polling)
  /\ where_ (sup_run sup_start (replicate 4 false ++ [true])).1 = Polling
  /\ (forall oks, where_ (sup_run sup_start oks).1 = Polling ->
     sup_step (sup_run sup_start oks).1 true = (mkSupervisor 0 Polling, [])
     /\ sup_step (sup_run sup_start oks).1 false = (mkSupervisor 1 Launching, [30]))
  /\ (forall oks, where_ (sup_run sup_start oks).1 = Launching ->
     sup_step (sup_run sup_start oks).1 true = (mkSupervisor 0 Polling, [])).
Proof.
  split; [|split; [|split; [|split; [|split; [|split; [|split]]]]]].
  - intros oks H.
    destruct (sup_run_invariant oks) as [Hrun _]. destruct (Hrun H) as [Ha _].
    rewrite trailing_failures_snoc, <- Ha. unfold sup_step.
    destruct (where_ (sup_run sup_start oks).1); [| |done];
      unfold on_error; cbn [fst snd attempt]; (split; [do 2 f_equal|]; lia).
  - apply backoff_sleeps.
  - intros oks H. by rewrite after_success.
  - apply exit_iff_five_failures.
  - intros oks H. rewrite sup_run_app, after_success by done. reflexivity.
  - reflexivity.
  - intros oks H. destruct (sup_run_invariant oks) as (_ & Hpoll & _).
    specialize (Hpoll H). cbn zeta in Hpoll.
    destruct (sup_run sup_start oks).1 as [a w]. cbn [where_ attempt] in *.
    subst. by split.
  - intros oks H. unfold sup_step. by rewrite H.
Qed.

Lemma supervisor_backoff_and_threshold_witness :
  where_ (sup_run sup_start [true; false; false; false]).1 <> Exited
  /\ (sup_step (sup_run sup_start [true; false; false; false]).1 false).2 = [120]
  /\ attempt (sup_run sup_start ([false; false; false; false] ++ [true])).1 = 0
  /\ where_ (sup_run sup_start ([true] ++ replicate 5 false ++ [true])).1 = Exited
  /\ where_ (sup_run sup_start [true; false; true]).1 = Polling
  /\ sup_step (sup_run sup_start [true; false; true]).1 false
     = (mkSupervisor 1 Launching, [30]).
Proof.
  pose proof supervisor_backoff_and_threshold
    as (Hsleep & _ & Hreset & Hexit & _ & _ & Hcycle & _).
  split; [by vm_compute|].
  split; [apply (Hsleep [true; false; false; false]); by vm_compute|].
  split; [apply (Hreset [false; false; false; false]); by vm_compute|].
  split; [apply (Hexit ([true] ++ replicate 5 false ++ [true]));
          by exists [true], [true]|].
  split; [reflexivity|].
  apply (Hcycle [true; false; true]). reflexivity.
Defined.

(** C9 fails as stated for acquisition failures.  The browser is launched
    with success and the cycle then fails, six times over: the six failed
    cycles follow one another without a cycle that completes, yet the loop
    sleeps 30 seconds after each of them, never [30 * n], and after the
    sixth it is about to launch the browser again, with the counter at 1. *)
Lemma cycle_failures_do_not_accumulate :
  sup_run sup_start
    [true; false; true; false; true; false; true; false; true; false; true; false]
  = (mkSupervisor 1 Launching, [30; 30; 30; 30; 30; 30])
  /\ [30; 30; 30; 30; 30; 30] <> (fun k => 30 * k) <$> seq 1 6
  /\ where_ (mkSupervisor 1 Launching) <> Exited.
Proof. split; [reflexivity|]. split; discriminate. Qed.

(** ** Saving the history *)

Lemma append_snoc (s t : string) (c : ascii) :
  (s +:+ String c EmptyString) +:+ t = s +:+ String c t.
Proof.
  induction s as [|a s IH]; [done|].
  change (String a ((s +:+ String c EmptyString) +:+ t) = String a (s +:+ String c t)).
  by rewrite IH.
Qed.

Lemma append_empty_r (s : string) : s +:+ EmptyString = s.
Proof.
  induction s as [|a s IH]; [done|].
  change (String a (s +:+ EmptyString) = String a s). by rewrite IH.
Qed.

Lemma fold_writes (l : list ascii) (s : string) :
  fold_left apply_op (WriteByte <$> l) (Some s) = Some (s +:+ string_of_list_ascii l).
Proof.
  revert s. induction l as [|c l IH]; intros s; csimpl.
  - by rewrite append_empty_r.
  - rewrite IH. by rewrite append_snoc.
Qed.

Lemma st_ab_reached :
  run_cycle [c_ab "1.80" "2024-01-01 10:00:00"] st_empty
  = (None, [NewSuperquote id_ab info_a], st_ab).
Proof. vm_compute. reflexivity. Qed.

(** C2, as the code has it: [_save_history] truncates the history file and
    writes the new text in place.  When the process stops after [n] file
    operations, the file is untouched for [n = 0] and otherwise holds the
    first [n - 1] bytes of the new text: empty, partial, or complete. *)
Theorem save_history_crash_states (st : State) (d : disk) (n : nat) :
  crash_after n (_save_history st) d
  = match n with
    | O => d
    | S k => Some (string_of_list_ascii
                     (take k (list_ascii_of_string (JSON.dumps (history_value st)))))
    end.
Proof.
  unfold crash_after, _save_history. destruct n as [|k]; [done|].
  rewrite firstn_cons. cbn [fold_left apply_op].
  rewrite <- fmap_take, fold_writes. done.
Qed.

(** C2 fails as stated: with the history file holding [{}], a stop right
    after [open(..., 'w')] leaves an empty file, which is neither the
    previous content nor the new one; one byte later the file holds [{]. *)
Lemma save_history_not_atomic :
  crash_after 1 (_save_history st_ab) (Some "{}") = Some ""
  /\ crash_after 2 (_save_history st_ab) (Some "{}") = Some "{"
  /\ Some "" <> Some "{}"
  /\ Some "" <> Some (JSON.dumps (history_value st_ab))
  /\ Some "{" <> Some "{}"
  /\ Some "{" <> Some (JSON.dumps (history_value st_ab)).
Proof. vm_compute. repeat split; congruence. Qed.

(** ** Loading the history *)

(** C5: a history file that is not valid JSON gives a warning and an empty
    store, but a file that holds valid JSON of another shape (the array
    [[]], or an object with a member that is not an object) or bytes that
    are not UTF-8 makes [_load_history] raise, and [__init__] with it. *)
Theorem load_history_decode_failure_and_crash :
  (forall self,
     _load_history (File JSONDecodeError) self
     = (inr [], self, [LogWarning "History file is corrupted. Starting fresh."]))
  /\ __init__ (File JSONDecodeError)
     = (inr st_empty, [LogWarning "History file is corrupted. Starting fresh."])
  /\ __init__ (File (Parsed (VList []))) = (inl AttributeError, [])
  /\ __init__ (File (Parsed (VDict [("k", VNum "1")]))) = (inl AttributeError, [])
  /\ __init__ (File InvalidUTF8) = (inl UnicodeDecodeError, []).
Proof. repeat split. Qed.

(** ** The guards of the loop *)

Lemma for_each_app {A : Type} (body : A -> Cycle -> option exn * Cycle) l1 l2 w :
  for_each body (l1 ++ l2) w
  = match for_each body l1 w with
    | (None, w') => for_each body l2 w'
    | (Some e, w') => (Some e, w')
    end.
Proof.
  revert w. induction l1 as [|x l1 IH]; intros w; simpl; [done|].
  destruct (body x w) as [[e|] w']; [done|]. apply IH.
Qed.

(** C4, as the code has it: an extracted item whose [match] or whose
    boosted odds are "N/A" is skipped before it is fingerprinted; the cycle
    behaves as if its container were not on the page. *)
Theorem sentinel_item_excluded (c : container) (n : nat) :
  boost_count c = Some (S n) ->
  match_ (_extract_bet_info c) = NA \/ odds_new (_extract_bet_info c) = NA ->
  (forall w, handle_container c w = (None, w))
  /\ (forall pre post st, run_cycle (pre ++ c :: post) st = run_cycle (pre ++ post) st).
Proof.
  intros Hb Hna.
  assert (forall w, handle_container c w = (None, w)) as Hskip.
  { intros w. unfold handle_container. rewrite Hb.
    destruct Hna as [-> | ->]; [done|]. by rewrite orb_true_r. }
  split; [done|]. intros pre post st. unfold run_cycle.
  rewrite !for_each_app. cbn [for_each].
  destruct (for_each handle_container pre _) as [[e|] w]; [done|].
  by rewrite Hskip.
Qed.

Lemma sentinel_item_excluded_witness :
  (forall w, handle_container c_no_odds w = (None, w))
  /\ (forall pre post st,
        run_cycle (pre ++ c_no_odds :: post) st = run_cycle (pre ++ post) st).
Proof.
  apply (sentinel_item_excluded c_no_odds 0); [reflexivity|]. right. reflexivity.
Defined.

(** C4 fails as stated: an item whose market is "N/A" is kept when its
    [match] and its boosted odds are there; it is fingerprinted, announced
    and stored. *)
Lemma market_sentinel_not_excluded :
  market (_extract_bet_info c_no_market) = NA
  /\ run_cycle [c_no_market] st_empty
     = (None,
        [NewSuperquote "359ef09ef3dc188c869e3fb80fccf1c5"
           (mkInfo "Soccer" "Boost" "A vs B" "N/A" "1,50" "1,80" "2024-01-01 10:00:00")],
        mkState
          [ [ ("sport", VStr "Soccer"); ("details", VStr "Boost");
              ("match", VStr "A vs B"); ("market", VStr "N/A");
              ("odds_old", VStr "1,50"); ("odds_new", VStr "1,80");
              ("timestamp", VStr "2024-01-01 10:00:00"); ("active", VBool true) ] ]
          [ ("359ef09ef3dc188c869e3fb80fccf1c5", 0) ]
          [ ("359ef09ef3dc188c869e3fb80fccf1c5", 0) ]).
Proof. vm_compute. split; reflexivity. Qed.

(** ** The heap *)

Lemma deref_alter_eq (h : list pydict) (l : loc) (f : pydict -> pydict) :
  l < length h -> deref (alter f l h) l = f (deref h l).
Proof.
  intros Hl. unfold deref. rewrite list_lookup_alter_eq.
  destruct (lookup_lt_is_Some_2 h l Hl) as [r ->]. done.
Qed.

Lemma deref_alter_ne (h : list pydict) (l l' : loc) (f : pydict -> pydict) :
  l <> l' -> deref (alter f l h) l' = deref h l'.
Proof. intros Hne. unfold deref. by rewrite list_lookup_alter_ne. Qed.

Lemma deref_app_old (h : list pydict) (r : pydict) (l : loc) :
  l < length h -> deref (h ++ [r]) l = deref h l.
Proof. intros Hl. unfold deref. by rewrite lookup_app_l. Qed.

Lemma deref_app_new (h : list pydict) (r : pydict) : deref (h ++ [r]) (length h) = r.
Proof. unfold deref. by rewrite list_lookup_middle. Qed.

Lemma is_active_spec (r : pydict) :
  is_active r = true <-> PyDict.get r "active" = Some (VBool true).
Proof.
  unfold is_active. destruct (PyDict.get r "active") as [[| [|] | | | |]|]; naive_solver.
Qed.

Lemma is_active_touch ts r : is_active (touch ts r) = true.
Proof. apply is_active_spec. unfold touch. apply get_set_eq. Qed.

Lemma is_active_deactivate r : is_active (deactivate r) = false.
Proof. unfold is_active, deactivate. by rewrite get_set_eq. Qed.

Lemma is_active_new data :
  is_active (PyDict.set (info_dict data) "active" (VBool true)) = true.
Proof. apply is_active_spec. apply get_set_eq. Qed.

(** ** Well-formed states *)

Lemma wf_empty : wf st_empty.
Proof.
  split; cbn; try done; try apply NoDup_nil_2.
Qed.

Lemma wf_new_bet st k obj :
  wf st -> is_active obj = true ->
  wf (mkState (heap st ++ [obj])
              (PyDict.set (active_superquotes st) k (length (heap st)))
              (PyDict.set (history st) k (length (heap st)))).
Proof.
  intros [Hna Hnh Hal Hlt Hinj Hfl] Hobj. split; cbn [heap active_superquotes history].
  - by apply NoDup_keys_set.
  - by apply NoDup_keys_set.
  - intros k0 l0. destruct (decide (k = k0)) as [->|Hne].
    + by rewrite !get_set_eq.
    + rewrite !get_set_ne by done. apply Hal.
  - intros k0 l0. rewrite length_app. cbn. destruct (decide (k = k0)) as [->|Hne].
    + rewrite get_set_eq. intros [= <-]. lia.
    + rewrite get_set_ne by done. intros H%Hlt. lia.
  - intros k1 k2 l0.
    destruct (decide (k = k1)) as [<-|Hne1]; destruct (decide (k = k2)) as [<-|Hne2];
      rewrite ?get_set_eq, ?get_set_ne by done; try done.
    + intros [= <-] H%Hlt. lia.
    + intros H%Hlt [= <-]. lia.
    + apply Hinj.
  - intros k0 l0. rewrite elem_keys_set. destruct (decide (k = k0)) as [->|Hne].
    + rewrite get_set_eq. intros [= <-]. rewrite deref_app_new. naive_solver.
    + rewrite get_set_ne by done. intros Hk0.
      rewrite deref_app_old by eauto. rewrite (Hfl _ _ Hk0). naive_solver.
Qed.

Lemma wf_touch st k l ts :
  wf st -> k ∈ PyDict.keys (active_superquotes st) ->
  PyDict.get (history st) k = Some l ->
  wf (mkState (alter (touch ts) l (heap st)) (active_superquotes st) (history st)).
Proof.
  intros [Hna Hnh Hal Hlt Hinj Hfl] Hk Hl.
  split; cbn [heap active_superquotes history]; try done.
  - intros k0 l0 H%Hlt. by rewrite length_alter.
  - intros k0 l0 Hk0. destruct (decide (l = l0)) as [<-|Hne].
    + rewrite (Hinj _ _ _ Hk0 Hl). rewrite deref_alter_eq by eauto.
      rewrite is_active_touch. naive_solver.
    + rewrite deref_alter_ne by done. by apply Hfl.
Qed.

Lemma wf_deactivate st k l :
  wf st -> PyDict.get (history st) k = Some l ->
  wf (mkState (alter deactivate l (heap st))
              (PyDict.remove (active_superquotes st) k) (history st)).
Proof.
  intros [Hna Hnh Hal Hlt Hinj Hfl] Hl.
  split; cbn [heap active_superquotes history]; try done.
  - by apply NoDup_keys_remove.
  - intros k0 l0 Hk0. pose proof (get_Some_elem _ _ _ Hk0) as Hin.
    apply elem_keys_remove in Hin as [Hne _]; [|done].
    rewrite get_remove_ne in Hk0 by done. by apply Hal.
  - intros k0 l0 H%Hlt. by rewrite length_alter.
  - intros k0 l0 Hk0. rewrite elem_keys_remove by done.
    destruct (decide (l = l0)) as [<-|Hne].
    + rewrite (Hinj _ _ _ Hk0 Hl). rewrite deref_alter_eq by eauto.
      rewrite is_active_deactivate. naive_solver.
    + rewrite deref_alter_ne by done. rewrite (Hfl _ _ Hk0).
      assert (k0 <> k) by (intros ->; congruence). naive_solver.
Qed.

Lemma handle_bet_wf d w r w' :
  wf (bot w) -> handle_bet d w = (r, w') -> wf (bot w').
Proof.
  intros Hwf. unfold handle_bet.
  destruct (PyDict.contains _ _) eqn:Hc; cbn [negb].
  - destruct (PyDict.get (history (bot w)) _) as [l|] eqn:Hl; intros [= <- <-]; cbn [bot].
    + eapply wf_touch; [done| |done]. by apply contains_true.
    + done.
  - intros [= <- <-]. cbn [bot]. apply wf_new_bet; [done|apply is_active_new].
Qed.

Lemma handle_container_wf c w r w' :
  wf (bot w) -> handle_container c w = (r, w') -> wf (bot w').
Proof.
  intros Hwf. unfold handle_container.
  destruct (boost_count c) as [[|n]|]; try (intros [= <- <-]; done).
  destruct (_ || _); [by intros [= <- <-]|]. by apply handle_bet_wf.
Qed.

Lemma remove_bet_wf bid w r w' :
  wf (bot w) -> remove_bet bid w = (r, w') -> wf (bot w').
Proof.
  intros Hwf. unfold remove_bet.
  destruct (PyDict.get (active_superquotes (bot w)) bid) as [bet|] eqn:Hb;
    [|by intros [= <- <-]].
  rewrite (wf_alias _ Hwf _ _ Hb). cbn zeta.
  pose proof (wf_deactivate _ _ _ Hwf (wf_alias _ Hwf _ _ Hb)) as Hwf'.
  repeat (match goal with |- context [match ?x with _ => _ end] => destruct x end);
    intros [= <- <-]; exact Hwf'.
Qed.

Lemma for_each_invariant {A : Type} (P : Cycle -> Prop)
    (body : A -> Cycle -> option exn * Cycle) :
  (forall x w r w', P w -> body x w = (r, w') -> P w') ->
  forall l w r w', P w -> for_each body l w = (r, w') -> P w'.
Proof.
  intros Hbody l. induction l as [|x l IH]; intros w r w' HP; simpl.
  - by intros [= <- <-].
  - destruct (body x w) as [[e|] w1] eqn:Hx.
    + intros [= <- <-]. eapply Hbody; eauto.
    + apply IH. eapply Hbody; eauto.
Qed.

Lemma run_cycle_wf cs st r evs st' :
  wf st -> run_cycle cs st = (r, evs, st') -> wf st'.
Proof.
  intros Hwf. unfold run_cycle.
  destruct (for_each handle_container cs _) as [[e|] w1] eqn:H1.
  - intros [= <- <- <-].
    eapply (for_each_invariant (fun w => wf (bot w))); [apply handle_container_wf| |exact H1].
    done.
  - destruct (for_each remove_bet _ w1) as [r2 w2] eqn:H2. intros [= <- <- <-].
    eapply (for_each_invariant (fun w => wf (bot w))); [apply remove_bet_wf| |exact H2].
    eapply (for_each_invariant (fun w => wf (bot w))); [apply handle_container_wf| |exact H1].
    done.
Qed.

(** ** The state built by [__init__] *)

Lemma get_elem {A : Type} (d : dict A) k v :
  NoDup (PyDict.keys d) -> PyDict.get d k = Some v <-> (k, v) ∈ d.
Proof.
  unfold PyDict.keys. induction d as [|[k0 v0] d IH]; csimpl.
  - intros _. split; [done|]. intros H. by apply elem_of_nil in H.
  - rewrite NoDup_cons. intros [Hnin Hnd]. rewrite elem_of_cons.
    destruct (String.eqb_spec k0 k) as [->|Hne].
    + split; [intros [= ->]; by left|]. intros [[= ->]|Hin]; [done|].
      exfalso. apply Hnin. apply list_elem_of_fmap. by exists (k, v).
    + rewrite IH by done. split; [by right|]. intros [[= -> ->]|Hin]; done.
Qed.

Lemma NoDup_keys_filter {A : Type} (P : string * A -> Prop)
    `{!forall x, Decision (P x)} (d : dict A) :
  NoDup (PyDict.keys d) -> NoDup (PyDict.keys (filter P d)).
Proof.
  intros Hnd. eapply sublist_NoDup; [exact Hnd|].
  unfold PyDict.keys. apply fmap_sublist, sublist_filter.
Qed.

Lemma NoDup_keys_of_pairs {A : Type} (pairs : list (string * A)) :
  NoDup (PyDict.keys (PyDict.of_pairs pairs)).
Proof.
  unfold PyDict.of_pairs.
  assert (forall d : dict A, NoDup (PyDict.keys d) ->
            NoDup (PyDict.keys (fold_left (fun d kv => PyDict.set d kv.1 kv.2) pairs d)))
    as Hgen.
  { induction pairs as [|kv pairs IH]; intros d Hd; simpl; [done|].
    apply IH. by apply NoDup_keys_set. }
  apply Hgen. apply NoDup_nil_2.
Qed.

Lemma as_records_keys items recs :
  as_records items = Some recs -> recs.*1 = items.*1.
Proof.
  revert recs. induction items as [|[k v] items IH]; intros recs; simpl.
  - by intros [= <-].
  - destruct v; try done. destruct (as_records items) as [rs|]; [|done].
    intros [= <-]. csimpl. by rewrite (IH rs).
Qed.

Lemma index_from_keys b recs : (index_from b recs).*1 = recs.*1.
Proof.
  revert b. induction recs as [|[k r] recs IH]; intros b; csimpl; [done|].
  by rewrite IH.
Qed.

Lemma index_from_bounds b recs k l :
  PyDict.get (index_from b recs) k = Some l -> b <= l /\ l < b + length recs.
Proof.
  revert b. induction recs as [|[k0 r] recs IH]; intros b; simpl; [done|].
  destruct (String.eqb_spec k0 k).
  - intros [= <-]. lia.
  - intros H%IH. lia.
Qed.

Lemma index_from_inj b recs k1 k2 l :
  PyDict.get (index_from b recs) k1 = Some l ->
  PyDict.get (index_from b recs) k2 = Some l -> k1 = k2.
Proof.
  revert b. induction recs as [|[k0 r] recs IH]; intros b; simpl; [done|].
  destruct (String.eqb_spec k0 k1) as [<-|Hne1];
    destruct (String.eqb_spec k0 k2) as [<-|Hne2]; try done.
  - intros [= <-] H%index_from_bounds. lia.
  - intros H%index_from_bounds [= <-]. lia.
  - apply IH.
Qed.

Lemma wf_loaded recs :
  NoDup recs.*1 ->
  wf (mkState recs.*2
        (filter (fun kl => is_active (deref recs.*2 kl.2) = true) (index_from 0 recs))
        (index_from 0 recs)).
Proof.
  intros Hnd.
  assert (NoDup (PyDict.keys (index_from 0 recs))) as Hnd'.
  { unfold PyDict.keys. by rewrite index_from_keys. }
  split; cbn [heap active_superquotes history].
  - by apply NoDup_keys_filter.
  - done.
  - intros k l. rewrite !get_elem by (done || by apply NoDup_keys_filter).
    rewrite list_elem_of_filter. tauto.
  - intros k l H%index_from_bounds. rewrite length_fmap. lia.
  - apply index_from_inj.
  - intros k l Hk. split.
    + intros Hact. unfold PyDict.keys. apply list_elem_of_fmap.
      exists (k, l). split; [done|]. apply list_elem_of_filter.
      split; [done|]. by apply get_elem.
    + unfold PyDict.keys. intros ([k' l'] & -> & Hin)%list_elem_of_fmap.
      apply list_elem_of_filter in Hin as [Hact Hin].
      apply get_elem in Hin; [|done]. cbn in *. congruence.
Qed.

Lemma init_wf f st log : __init__ f = (inr st, log) -> wf st.
Proof.
  unfold __init__, _load_history. destruct f as [|[| |v]].
  - intros [= <- <-]. apply wf_empty.
  - intros [= <- <-]. apply wf_empty.
  - done.
  - destruct v as [| | | | |members]; try done.
    destruct (as_records (PyDict.of_pairs members)) as [recs|] eqn:Hrecs; [|done].
    intros [= <- <-]. cbn. apply wf_loaded.
    rewrite (as_records_keys _ _ Hrecs). apply NoDup_keys_of_pairs.
Qed.

Lemma between_cycles_wf st : between_cycles st -> wf st.
Proof.
  induction 1 as [f st log Hinit | st cs r evs st' _ IH Hrun].
  - eapply init_wf, Hinit.
  - eapply run_cycle_wf; [exact IH | exact Hrun].
Qed.

(** C1: between two cycles, that is after [__init__] has loaded the history
    and after the diff step of each cycle, a fingerprint is a key of
    [active_superquotes] exactly when [history] has a record under it whose
    [active] entry is [True]. *)
Theorem active_set_matches_history (st : State) :
  between_cycles st -> active_iff_history st.
Proof.
  intros Hst. pose proof (between_cycles_wf _ Hst) as Hwf. intros k. split.
  - intros [l Hl]%elem_keys_get.
    pose proof (wf_alias _ Hwf _ _ Hl) as Hh.
    pose proof (wf_alloc _ Hwf _ _ Hh) as Hlt.
    destruct (lookup_lt_is_Some_2 _ _ Hlt) as [r Hr].
    exists l, r. split; [done|]. split; [done|].
    apply is_active_spec. replace r with (deref (heap st) l).
    + apply (wf_flag _ Hwf _ _ Hh). eapply get_Some_elem, Hl.
    + unfold deref. by rewrite Hr.
  - intros (l & r & Hh & Hr & Hact).
    apply (wf_flag _ Hwf _ _ Hh). apply is_active_spec.
    unfold deref. by rewrite Hr.
Qed.

Lemma active_set_matches_history_witness :
  between_cycles st_ab /\ active_iff_history st_ab.
Proof.
  assert (between_cycles st_ab) as H.
  { apply (after_cycle st_empty [c_ab "1.80" "2024-01-01 10:00:00"] None
             [NewSuperquote id_ab info_a] st_ab).
    - apply (after_load NoFile st_empty []). reflexivity.
    - vm_compute. reflexivity. }
  split; [exact H|]. apply (active_set_matches_history st_ab H).
Defined.

(** ** The loop body on one item *)

Lemma handle_container_candidate c data w :
  candidate c = Some data -> handle_container c w = handle_bet data w.
Proof.
  unfold candidate, handle_container.
  destruct (boost_count c) as [[|n]|]; try done.
  destruct (_ || _); [done|]. by intros [= <-].
Qed.

Lemma handle_container_skip c w :
  candidate c = None -> boost_count c <> None -> handle_container c w = (None, w).
Proof.
  unfold candidate, handle_container.
  destruct (boost_count c) as [[|n]|]; try done.
  destruct (_ || _); done.
Qed.

Lemma handle_bet_active data w l :
  _generate_id data ∈ PyDict.keys (active_superquotes (bot w)) ->
  PyDict.get (history (bot w)) (_generate_id data) = Some l ->
  handle_bet data w
  = (None,
     mkCycle (mkState (alter (touch (timestamp data)) l (heap (bot w)))
                      (active_superquotes (bot w)) (history (bot w)))
             (current_cycle_ids w ++ [_generate_id data]) (sent w)).
Proof.
  intros Hin Hl. unfold handle_bet.
  apply contains_true in Hin. rewrite Hin, Hl. done.
Qed.

Lemma handle_bet_new data w :
  _generate_id data ∉ PyDict.keys (active_superquotes (bot w)) ->
  handle_bet data w
  = (None,
     mkCycle (mkState (heap (bot w)
                         ++ [PyDict.set (info_dict data) "active" (VBool true)])
                      (PyDict.set (active_superquotes (bot w)) (_generate_id data)
                                  (length (heap (bot w))))
                      (PyDict.set (history (bot w)) (_generate_id data)
                                  (length (heap (bot w)))))
             (current_cycle_ids w ++ [_generate_id data])
             (sent w ++ [NewSuperquote (_generate_id data) data])).
Proof.
  intros Hnin. unfold handle_bet. apply contains_false in Hnin. by rewrite Hnin.
Qed.

Lemma get_touch ts r key :
  key <> "timestamp" -> key <> "active" ->
  PyDict.get (touch ts r) key = PyDict.get r key.
Proof. intros H1 H2. unfold touch. by rewrite !get_set_ne. Qed.

Lemma get_touch_timestamp ts r :
  PyDict.get (touch ts r) "timestamp" = Some (VStr ts).
Proof. unfold touch. rewrite get_set_ne by done. apply get_set_eq. Qed.

Lemma get_touch_active ts r : PyDict.get (touch ts r) "active" = Some (VBool true).
Proof. unfold touch. apply get_set_eq. Qed.

(** C3, as the code has it.  For an item whose fingerprint is in the Active
    Set, the stored record only gets the new timestamp and the active flag:
    every other field, the odds among them, keeps its stored value, and no
    message is sent.  For a fingerprint that is not in the Active Set,
    whether the History Store has never seen it or holds it as inactive,
    the record becomes the new item with all its fields and the active
    flag, and the bet is announced. *)
Theorem history_upsert (c : container) (data : Info) (w : Cycle) :
  candidate c = Some data ->
  (forall l,
     _generate_id data ∈ PyDict.keys (active_superquotes (bot w)) ->
     PyDict.get (history (bot w)) (_generate_id data) = Some l ->
     l < length (heap (bot w)) ->
     exists w',
       handle_container c w = (None, w')
       /\ sent w' = sent w
       /\ history (bot w') = history (bot w)
       /\ active_superquotes (bot w') = active_superquotes (bot w)
       /\ PyDict.get (deref (heap (bot w')) l) "timestamp" = Some (VStr (timestamp data))
       /\ PyDict.get (deref (heap (bot w')) l) "active" = Some (VBool true)
       /\ forall key, key <> "timestamp" -> key <> "active" ->
            PyDict.get (deref (heap (bot w')) l) key
            = PyDict.get (deref (heap (bot w)) l) key)
  /\ (_generate_id data ∉ PyDict.keys (active_superquotes (bot w)) ->
      exists w' l,
        handle_container c w = (None, w')
        /\ sent w' = sent w ++ [NewSuperquote (_generate_id data) data]
        /\ PyDict.get (history (bot w')) (_generate_id data) = Some l
        /\ PyDict.get (active_superquotes (bot w')) (_generate_id data) = Some l
        /\ deref (heap (bot w')) l
           = PyDict.set (info_dict data) "active" (VBool true)).
Proof.
  intros Hc. rewrite (handle_container_candidate _ _ _ Hc). split.
  - intros l Hin Hl Hlt. eexists. split; [by apply handle_bet_active|].
    cbn [bot sent heap history active_superquotes].
    rewrite deref_alter_eq by done.
    rewrite get_touch_timestamp, get_touch_active.
    repeat split; try done. intros key H1 H2. by apply get_touch.
  - intros Hnin. eexists _, (length (heap (bot w))).
    split; [by apply handle_bet_new|].
    cbn [bot sent heap history active_superquotes].
    rewrite !get_set_eq, deref_app_new. done.
Qed.

Lemma history_upsert_witness :
  candidate (c_ab "2.00" "2024-01-01 10:05:00") = Some info_a2
  /\ (exists w',
        handle_container (c_ab "2.00" "2024-01-01 10:05:00") (mkCycle st_ab [] [])
        = (None, w')
        /\ sent w' = []
        /\ PyDict.get (deref (heap (bot w')) 0) "odds_new" = Some (VStr "1,80"))
  /\ (exists w' l,
        handle_container (c_ab "2.00" "2024-01-01 10:05:00") (mkCycle st_empty [] [])
        = (None, w')
        /\ PyDict.get (history (bot w')) id_ab = Some l
        /\ PyDict.get (deref (heap (bot w')) l) "odds_new" = Some (VStr "2,00")).
Proof.
  assert (candidate (c_ab "2.00" "2024-01-01 10:05:00") = Some info_a2) as Hc
    by (vm_compute; reflexivity).
  assert (_generate_id info_a2 = id_ab) as Hid by (vm_compute; reflexivity).
  destruct (history_upsert _ _ (mkCycle st_ab [] []) Hc) as [Hold _].
  destruct (history_upsert _ _ (mkCycle st_empty [] []) Hc) as [_ Hnew].
  split; [exact Hc|]. split.
  - destruct (Hold 0) as (w' & Hrun & Hsent & _ & _ & _ & _ & Hkeep).
    + rewrite Hid. vm_compute. apply list_elem_of_here.
    + rewrite Hid. vm_compute. reflexivity.
    + vm_compute. lia.
    + exists w'. split; [exact Hrun|]. split; [exact Hsent|].
      rewrite Hkeep by done. vm_compute. reflexivity.
  - destruct Hnew as (w' & l & Hrun & _ & Hh & _ & Hobj).
    + rewrite Hid. vm_compute. apply not_elem_of_nil.
    + exists w', l. split; [exact Hrun|]. rewrite Hid in Hh. split; [exact Hh|].
      rewrite Hobj. vm_compute. reflexivity.
Defined.

(** C3 fails as stated: the bet on "A vs B" is active with boosted odds
    1,80; the next cycle reads it with boosted odds 2,00; the stored record
    gets the new timestamp and keeps 1,80. *)
Lemma refresh_keeps_stored_odds :
  odds_new (_extract_bet_info (c_ab "2.00" "2024-01-01 10:05:00")) = "2,00"
  /\ PyDict.get (history st_ab) id_ab = Some 0
  /\ run_cycle [c_ab "2.00" "2024-01-01 10:05:00"] st_ab
     = (None, [],
        mkState
          [ [ ("sport", VStr "Soccer"); ("details", VStr "Boost");
              ("match", VStr "A vs B"); ("market", VStr "Winner");
              ("odds_old", VStr "1,50"); ("odds_new", VStr "1,80");
              ("timestamp", VStr "2024-01-01 10:05:00"); ("active", VBool true) ] ]
          [ (id_ab, 0) ]
          [ (id_ab, 0) ]).
Proof. vm_compute. repeat split. Qed.

(** ** The two loops of a cycle *)

Lemma scan_no_probe_error cs w w' :
  for_each handle_container cs w = (None, w') ->
  Forall (fun c => boost_count c <> None) cs.
Proof.
  revert w. induction cs as [|c cs IH]; intros w; simpl; [by constructor|].
  destruct (handle_container c w) as [[e|] w1] eqn:Hc; [done|].
  intros H. constructor; [|by eapply IH].
  intros Hb. unfold handle_container in Hc. by rewrite Hb in Hc.
Qed.

Lemma scan_candidates cs w :
  Forall (fun c => boost_count c <> None) cs ->
  for_each handle_container cs w = for_each handle_bet (candidates cs) w.
Proof.
  intros Hcs. revert w. induction Hcs as [|c cs Hc _ IH]; intros w; [done|].
  unfold candidates. csimpl. destruct (candidate c) as [d|] eqn:Hd.
  - rewrite (handle_container_candidate _ _ _ Hd). cbn [for_each].
    destruct (handle_bet d w) as [[e|] w1]; [done|]. apply IH.
  - rewrite handle_container_skip by done. apply IH.
Qed.

Lemma scan_spec ds w w' :
  for_each handle_bet ds w = (None, w') ->
  current_cycle_ids w' = current_cycle_ids w ++ (_generate_id <$> ds)
  /\ sent w' = sent w
       ++ (announce <$> new_items (PyDict.keys (active_superquotes (bot w))) ds)
  /\ PyDict.keys (active_superquotes (bot w'))
     = PyDict.keys (active_superquotes (bot w))
       ++ (_generate_id <$> new_items (PyDict.keys (active_superquotes (bot w))) ds).
Proof.
  revert w. induction ds as [|d ds IH]; intros w; cbn [for_each new_items].
  - intros [= <-]. by rewrite !app_nil_r.
  - destruct (decide (_generate_id d ∈ PyDict.keys (active_superquotes (bot w))))
      as [Hin|Hnin].
    + unfold handle_bet at 1. rewrite (proj2 (contains_true _ _) Hin). cbn [negb].
      destruct (PyDict.get (history (bot w)) (_generate_id d)) as [l|]; [|done].
      intros (Hids & Hsent & Hkeys)%IH. cbn [bot current_cycle_ids sent
        active_superquotes] in *.
      rewrite Hids, Hsent, Hkeys. csimpl. by rewrite <- app_assoc.
    + rewrite handle_bet_new by done.
      intros (Hids & Hsent & Hkeys)%IH. cbn [bot current_cycle_ids sent
        active_superquotes] in *.
      rewrite keys_set_new in Hsent, Hkeys by done.
      rewrite Hids, Hsent, Hkeys. csimpl. by rewrite <- !app_assoc.
Qed.

Lemma removal_spec bids w w' :
  for_each remove_bet bids w = (None, w') ->
  exists ended, sent w' = sent w ++ ended /\ Forall2 ends bids ended.
Proof.
  revert w. induction bids as [|bid bids IH]; intros w; cbn [for_each].
  - intros [= <-]. exists []. rewrite app_nil_r. split; [done|constructor].
  - destruct (remove_bet bid w) as [[e|] w1] eqn:Hb; [done|].
    intros (ended & Hsent & Hall)%IH.
    assert (exists ev, sent w1 = sent w ++ [ev] /\ ends bid ev) as (ev & Hev & Hends).
    { unfold remove_bet in Hb.
      repeat (match type of Hb with
              | context [match ?x with _ => _ end] => destruct x; try done
              end).
      injection Hb as <-. cbn [sent]. eexists. split; [done|]. by eexists _, _, _. }
    exists (ev :: ended). rewrite Hsent, Hev, <- app_assoc. split; [done|].
    by constructor.
Qed.

Lemma ends_added_ids bids ended : Forall2 ends bids ended -> added_ids ended = [].
Proof.
  induction 1 as [|bid e bids ended (m & oo & on & ->) _ IH]; [done|]. exact IH.
Qed.

Lemma ends_ended_ids bids ended : Forall2 ends bids ended -> ended_ids ended = bids.
Proof.
  induction 1 as [|bid e bids ended (m & oo & on & ->) _ IH]; [done|].
  unfold ended_ids in *. csimpl. by rewrite IH.
Qed.

Lemma added_ids_announce ds : added_ids (announce <$> ds) = _generate_id <$> ds.
Proof.
  induction ds as [|d ds IH]; [done|]. unfold added_ids in *. csimpl. by rewrite IH.
Qed.

Lemma ended_ids_announce ds : ended_ids (announce <$> ds) = [].
Proof. induction ds as [|d ds IH]; [done|]. exact IH. Qed.

(** The items that are announced. *)

Lemma new_items_sublist seen ds : new_items seen ds `sublist_of` ds.
Proof.
  revert seen. induction ds as [|d ds IH]; intros seen; simpl; [done|].
  destruct (decide _); [by apply sublist_cons | by apply sublist_skip].
Qed.

Lemma elem_new_items seen ds k :
  k ∈ (_generate_id <$> new_items seen ds)
  <-> k ∈ (_generate_id <$> ds) /\ k ∉ seen.
Proof.
  revert seen. induction ds as [|d ds IH]; intros seen; simpl.
  - split; [intros H; by apply elem_of_nil in H | intros [H _]; by apply elem_of_nil in H].
  - destruct (decide (_generate_id d ∈ seen)) as [Hin|Hnin]; csimpl.
    + rewrite IH, elem_of_cons. split; [tauto|].
      intros [[->|H] Hk]; [done|tauto].
    + rewrite !elem_of_cons, IH, not_elem_of_app, list_elem_of_singleton.
      destruct (decide (k = _generate_id d)) as [->|Hne]; tauto.
Qed.

Lemma NoDup_new_items seen ds : NoDup (_generate_id <$> new_items seen ds).
Proof.
  revert seen. induction ds as [|d ds IH]; intros seen; simpl.
  - apply NoDup_nil_2.
  - destruct (decide _) as [Hin|Hnin]; [apply IH|]. csimpl.
    apply NoDup_cons. split; [|apply IH].
    rewrite elem_new_items, not_elem_of_app, list_elem_of_singleton. tauto.
Qed.

Lemma new_items_first seen pre d post :
  _generate_id d ∉ seen -> _generate_id d ∉ (_generate_id <$> pre) ->
  d ∈ new_items seen (pre ++ d :: post).
Proof.
  revert seen. induction pre as [|p pre IH]; intros seen Hseen Hpre; simpl.
  - rewrite decide_False by done. apply list_elem_of_here.
  - csimpl in Hpre. apply not_elem_of_cons in Hpre as [Hne Hpre].
    destruct (decide _); [by apply IH|].
    apply list_elem_of_further, IH; [|done].
    rewrite not_elem_of_app, list_elem_of_singleton. tauto.
Qed.

Lemma filter_none {A : Type} (P : A -> Prop) `{!forall x, Decision (P x)} (l : list A) :
  Forall (fun x => ~ P x) l -> filter P l = [].
Proof.
  induction 1 as [|x l Hx _ IH]; [done|]. by rewrite filter_cons_False.
Qed.

(** The messages of a cycle that completes: the announcements, then the
    endings, the latter in the order of the keys of [active_superquotes]. *)
Lemma run_cycle_events cs st evs st' :
  run_cycle cs st = (None, evs, st') ->
  exists ended,
    evs = (announce <$> new_items (PyDict.keys (active_superquotes st)) (candidates cs))
          ++ ended
    /\ Forall2 ends
         (filter (fun bid => bid ∉ (_generate_id <$> candidates cs))
                 (PyDict.keys (active_superquotes st)))
         ended.
Proof.
  unfold run_cycle.
  destruct (for_each handle_container cs _) as [[e|] w1] eqn:H1; [done|].
  destruct (for_each remove_bet _ w1) as [r w2] eqn:H2. intros [= -> <- <-].
  rewrite scan_candidates in H1 by (by eapply scan_no_probe_error).
  apply scan_spec in H1 as (Hids & Hsent & Hkeys). cbn in Hids, Hsent, Hkeys.
  apply removal_spec in H2 as (ended & Hsent2 & Hends).
  exists ended. rewrite Hsent2, Hsent. split; [done|].
  unfold removed_ids in Hends. rewrite Hids, Hkeys, filter_app in Hends.
  rewrite (filter_none _ (_ <$> new_items _ _)), app_nil_r in Hends; [done|].
  apply Forall_forall. intros k Hk%elem_new_items. tauto.
Qed.

(** ** The order of the messages *)

Lemma three_cycles :
  run_cycle [c_ab "1.80" t0; c_cd t0] st_empty
  = (None, [announce info_a; announce info_c], st_ac)
  /\ run_cycle [c_cd t1; c_ab "1.80" t1] st_ac = (None, [], st_ca)
  /\ run_cycle [] st_ca = (None, [ended_ab; ended_cd], st_gone).
Proof. vm_compute. repeat split. Qed.

Lemma event_ids added bids ended :
  Forall2 ends bids ended ->
  added_ids ((announce <$> added) ++ ended) = _generate_id <$> added
  /\ ended_ids ((announce <$> added) ++ ended) = bids.
Proof.
  intros Hends. unfold added_ids, ended_ids. rewrite !omap_app.
  fold (added_ids (announce <$> added)). fold (ended_ids (announce <$> added)).
  fold (added_ids ended). fold (ended_ids ended).
  rewrite added_ids_announce, ended_ids_announce.
  rewrite (ends_added_ids _ _ Hends), (ends_ended_ids _ _ Hends).
  by rewrite app_nil_r.
Qed.

(** C8, as the code has it.  The messages of a cycle are a function of the
    containers and of the state.  When the cycle completes they are the
    announcements followed by the endings; the announced items are a
    subsequence of the items in the order of [containers]; the endings
    follow the iteration order of [active_superquotes] as it was when the
    cycle began. *)
Theorem cycle_event_order (cs : list container) (st : State)
    (evs : list event) (st' : State) :
  run_cycle cs st = (None, evs, st') ->
  exists added ended,
    evs = (announce <$> added) ++ ended
    /\ added = new_items (PyDict.keys (active_superquotes st)) (candidates cs)
    /\ added `sublist_of` candidates cs
    /\ Forall2 ends
         (filter (fun bid => bid ∉ (_generate_id <$> candidates cs))
                 (PyDict.keys (active_superquotes st)))
         ended
    /\ added_ids evs = _generate_id <$> added
    /\ ended_ids evs
       = filter (fun bid => bid ∉ (_generate_id <$> candidates cs))
                (PyDict.keys (active_superquotes st)).
Proof.
  intros (ended & -> & Hends)%run_cycle_events.
  destruct (event_ids (new_items (PyDict.keys (active_superquotes st)) (candidates cs))
              _ _ Hends) as [Hadded Hended].
  eexists _, ended. split; [done|]. split; [done|].
  split; [apply new_items_sublist|]. by split.
Qed.

Lemma cycle_event_order_witness :
  exists added ended,
    [announce info_a; announce info_c] = (announce <$> added) ++ ended
    /\ added = new_items (PyDict.keys (active_superquotes st_empty))
                         (candidates [c_ab "1.80" t0; c_cd t0])
    /\ added `sublist_of` candidates [c_ab "1.80" t0; c_cd t0]
    /\ Forall2 ends
         (filter (fun bid => bid ∉ (_generate_id <$> candidates [c_ab "1.80" t0; c_cd t0]))
                 (PyDict.keys (active_superquotes st_empty)))
         ended
    /\ added_ids [announce info_a; announce info_c] = _generate_id <$> added
    /\ ended_ids [announce info_a; announce info_c]
       = filter (fun bid => bid ∉ (_generate_id <$> candidates [c_ab "1.80" t0; c_cd t0]))
                (PyDict.keys (active_superquotes st_empty)).
Proof.
  apply (cycle_event_order [c_ab "1.80" t0; c_cd t0] st_empty _ st_ac).
  vm_compute. reflexivity.
Defined.

(** C8 fails as stated for the endings.  Three cycles return "A vs B",
    then "C vs D", then "C vs D" and "A vs B".  If the bot keeps running
    and a fourth cycle finds nothing, the endings are sent for "C vs D"
    then "A vs B", the order of [active_superquotes].  If the bot is
    restarted on the saved history before that fourth cycle, they are sent
    for "A vs B" then "C vs D", the order of the history file.  The items
    were returned by the page in the same order in both runs. *)
Lemma endings_order_depends_on_restart :
  run_cycle [c_ab "1.80" t0] st_empty = (None, [announce info_a], st_ab)
  /\ run_cycle [c_cd t0] st_ab = (None, [announce info_c; ended_ab], st_c)
  /\ run_cycle [c_cd t1; c_ab "1.80" t1] st_c = (None, [announce info_a_t1], st_c_a)
  /\ (exists st', run_cycle [] st_c_a = (None, [ended_cd; ended_ab], st'))
  /\ __init__ (File (Parsed (history_value st_c_a))) = (inr st_ca, [LogLoaded 2 2])
  /\ run_cycle [] st_ca = (None, [ended_ab; ended_cd], st_gone)
  /\ ended_ids [ended_cd; ended_ab] = [id_cd; id_ab]
  /\ ended_ids [ended_ab; ended_cd] = [id_ab; id_cd]
  /\ [id_cd; id_ab] <> [id_ab; id_cd].
Proof.
  split; [by vm_compute|]. split; [by vm_compute|]. split; [by vm_compute|].
  split; [eexists; by vm_compute|]. split; [by vm_compute|].
  split; [by vm_compute|]. split; [by vm_compute|]. split; [by vm_compute|].
  by vm_compute.
Qed.

(** ** Several items with one fingerprint *)

Lemma scan_active_keys ds w w' k :
  for_each handle_bet ds w = (None, w') ->
  k ∈ PyDict.keys (active_superquotes (bot w'))
  <-> k ∈ PyDict.keys (active_superquotes (bot w)) \/ k ∈ (_generate_id <$> ds).
Proof.
  intros (_ & _ & ->)%scan_spec. rewrite elem_of_app, elem_new_items.
  destruct (decide (k ∈ PyDict.keys (active_superquotes (bot w)))); tauto.
Qed.

(** C10, as the code has it.  In a cycle that completes, a fingerprint is
    announced at most once, and it is announced exactly when an item
    carries it and it was not in the Active Set when the cycle began; the
    announcement is the one of the first item that carries it.  An item
    whose fingerprint is carried by an earlier item of the cycle sends no
    message and only puts its timestamp and the active flag in the stored
    record. *)
Theorem duplicate_fingerprints (cs : list container) (st : State)
    (evs : list event) (st' : State) :
  between_cycles st ->
  run_cycle cs st = (None, evs, st') ->
  NoDup (added_ids evs)
  /\ (forall k, k ∈ added_ids evs
                <-> k ∈ (_generate_id <$> candidates cs)
                    /\ k ∉ PyDict.keys (active_superquotes st))
  /\ (forall pre d post,
        candidates cs = pre ++ d :: post ->
        _generate_id d ∉ (_generate_id <$> pre) ->
        _generate_id d ∉ PyDict.keys (active_superquotes st) ->
        announce d ∈ evs)
  /\ (forall pre c post d,
        cs = pre ++ c :: post -> candidate c = Some d ->
        _generate_id d ∈ (_generate_id <$> candidates pre) ->
        exists w1 w2 l,
          for_each handle_container pre (mkCycle st [] []) = (None, w1)
          /\ handle_container c w1 = (None, w2)
          /\ sent w2 = sent w1
          /\ active_superquotes (bot w2) = active_superquotes (bot w1)
          /\ history (bot w2) = history (bot w1)
          /\ PyDict.get (history (bot w1)) (_generate_id d) = Some l
          /\ heap (bot w2) = alter (touch (timestamp d)) l (heap (bot w1))).
Proof.
  intros Hst Hrun. pose proof (between_cycles_wf _ Hst) as Hwf.
  destruct (run_cycle_events _ _ _ _ Hrun) as (ended & Hevs & Hends).
  destruct (event_ids (new_items (PyDict.keys (active_superquotes st)) (candidates cs))
              _ _ Hends) as [Hids _].
  rewrite <- Hevs in Hids.
  set (added := new_items (PyDict.keys (active_superquotes st)) (candidates cs)) in *.
  assert (added = new_items (PyDict.keys (active_superquotes st)) (candidates cs))
    as Hadded by done.
  split; [|split; [|split]].
  - rewrite Hids, Hadded. apply NoDup_new_items.
  - intros k. by rewrite Hids, Hadded, elem_new_items.
  - intros pre d post Hcs Hpre Hact. rewrite Hevs, elem_of_app. left.
    apply list_elem_of_fmap. exists d. split; [done|].
    rewrite Hadded, Hcs. by apply new_items_first.
  - intros pre c post d -> Hc Hdup. unfold run_cycle in Hrun.
    destruct (for_each handle_container (pre ++ c :: post) _) as [[e|] wA] eqn:HA;
      [done|].
    rewrite for_each_app in HA.
    destruct (for_each handle_container pre _) as [[e|] w1] eqn:H1; [done|].
    cbn [for_each] in HA.
    destruct (handle_container c w1) as [[e|] w2] eqn:H2; [done|].
    assert (wf (bot w1)) as Hwf1.
    { eapply (for_each_invariant (fun w => wf (bot w)));
        [apply handle_container_wf| |exact H1]. done. }
    assert (_generate_id d ∈ PyDict.keys (active_superquotes (bot w1))) as Hin.
    { rewrite scan_candidates in H1 by (by eapply scan_no_probe_error).
      apply (scan_active_keys _ _ _ (_generate_id d)) in H1. tauto. }
    destruct (elem_keys_get _ _ Hin) as [l Hl].
    apply (wf_alias _ Hwf1) in Hl.
    exists w1. eexists. exists l. split; [done|].
    rewrite (handle_container_candidate _ _ _ Hc).
    rewrite (handle_bet_active _ _ _ Hin Hl). split; [reflexivity|]. done.
Qed.

Lemma duplicate_fingerprints_witness :
  between_cycles st_empty
  /\ NoDup (added_ids [announce info_a])
  /\ announce info_a ∈ [announce info_a].
Proof.
  assert (between_cycles st_empty) as Hst.
  { apply (after_load NoFile st_empty []). reflexivity. }
  assert (run_cycle [c_ab "1.80" t0; c_ab "2.00" t1] st_empty
          = (None, [announce info_a],
             mkState
               [ [ ("sport", VStr "Soccer"); ("details", VStr "Boost");
                   ("match", VStr "A vs B"); ("market", VStr "Winner");
                   ("odds_old", VStr "1,50"); ("odds_new", VStr "1,80");
                   ("timestamp", VStr t1); ("active", VBool true) ] ]
               [ (id_ab, 0) ] [ (id_ab, 0) ])) as Hrun
    by (vm_compute; reflexivity).
  destruct (duplicate_fingerprints _ _ _ _ Hst Hrun) as (Hnd & _ & Hfirst & _).
  split; [exact Hst|]. split; [exact Hnd|].
  apply (Hfirst [] info_a [info_a2]).
  - vm_compute. reflexivity.
  - apply not_elem_of_nil.
  - apply not_elem_of_nil.
Defined.

(** C10 fails as stated: two items of a cycle carry the fingerprint of a
    bet that is already active, and no announcement is sent for it. *)
Lemma duplicate_of_active_bet_not_announced :
  (_generate_id <$> candidates [c_ab "1.80" t1; c_ab "2.00" t1]) = [id_ab; id_ab]
  /\ PyDict.keys (active_superquotes st_ab) = [id_ab]
  /\ run_cycle [c_ab "1.80" t1; c_ab "2.00" t1] st_ab
     = (None, [],
        mkState
          [ [ ("sport", VStr "Soccer"); ("details", VStr "Boost");
              ("match", VStr "A vs B"); ("market", VStr "Winner");
              ("odds_old", VStr "1,50"); ("odds_new", VStr "1,80");
              ("timestamp", VStr t1); ("active", VBool true) ] ]
          [ (id_ab, 0) ] [ (id_ab, 0) ]).
Proof. vm_compute. repeat split. Qed.

(** ** Running a cycle twice on the same containers *)





Section Refresh.
Variable hist : list (string * nat).
Hypothesis hist_inj : forall k1 k2 l,
  PyDict.get hist k1 = Some l -> PyDict.get hist k2 = Some l -> k1 = k2.





End Refresh.

Lemma handle_bet_cases d w w1 :
  handle_bet d w = (None, w1) -> wf (bot w) ->
  wf (bot w1)
  /\ ((_generate_id d ∈ PyDict.keys (active_superquotes (bot w))
       /\ (exists l, PyDict.get (history (bot w)) (_generate_id d) = Some l
                     /\ l < length (heap (bot w))
                     /\ bot w1 = mkState (alter (touch (timestamp d)) l (heap (bot w)))
                                         (active_superquotes (bot w)) (history (bot w))))
      \/ ((_generate_id d ∉ PyDict.keys (active_superquotes (bot w)))
          /\ bot w1 = mkState
               (heap (bot w) ++ [PyDict.set (info_dict d) "active" (VBool true)])
               (PyDict.set (active_superquotes (bot w)) (_generate_id d)
                           (length (heap (bot w))))
               (PyDict.set (history (bot w)) (_generate_id d)
                           (length (heap (bot w)))))).
Proof.
  intros Hd Hwf.
  destruct (decide (_generate_id d ∈ PyDict.keys (active_superquotes (bot w))))
    as [Hin|Hnin].
  - destruct (elem_keys_get _ _ Hin) as [l Hl]. apply (wf_alias _ Hwf) in Hl.
    rewrite (handle_bet_active _ _ _ Hin Hl) in Hd. injection Hd as <-.
    cbn [bot]. split; [by eapply wf_touch|]. left. split; [done|].
    exists l. split; [done|]. split; [by eapply wf_alloc|done].
  - rewrite (handle_bet_new _ _ Hnin) in Hd. injection Hd as <-. cbn [bot].
    split; [apply wf_new_bet; [done|apply is_active_new]|]. by right.
Qed.

(** A scan leaves alone the records of the fingerprints it does not meet. *)
Lemma scan_frame ds w w' k :
  for_each handle_bet ds w = (None, w') -> wf (bot w) ->
  k ∉ (_generate_id <$> ds) ->
  PyDict.get (history (bot w')) k = PyDict.get (history (bot w)) k
  /\ forall l, PyDict.get (history (bot w)) k = Some l ->
               deref (heap (bot w')) l = deref (heap (bot w)) l.
Proof.
  revert w. induction ds as [|d ds IH]; intros w; cbn [for_each].
  - by intros [= <-].
  - destruct (handle_bet d w) as [[e|] w1] eqn:Hd; [done|].
    intros Hrest Hwf. csimpl. rewrite not_elem_of_cons. intros [Hne Hk].
    destruct (handle_bet_cases _ _ _ Hd Hwf) as [Hwf1 Hcases].
    destruct (IH _ Hrest Hwf1 Hk) as [Hh Hd'].
    destruct Hcases as [(_ & l' & Hl' & _ & Hb) | (_ & Hb)]; rewrite Hb in *;
      cbn [heap history] in *.
    + split; [done|]. intros l Hl. rewrite (Hd' _ Hl).
      apply deref_alter_ne. intros ->. apply Hne. by eapply (wf_inj _ Hwf).
    + rewrite get_set_ne in Hh, Hd' by done. split; [done|].
      intros l Hl. rewrite (Hd' _ Hl). apply deref_app_old. by eapply wf_alloc.
Qed.


Lemma remove_bet_cases bid w w1 :
  remove_bet bid w = (None, w1) -> wf (bot w) ->
  exists l, PyDict.get (history (bot w)) bid = Some l
            /\ bot w1 = mkState (alter deactivate l (heap (bot w)))
                                (PyDict.remove (active_superquotes (bot w)) bid)
                                (history (bot w)).
Proof.
  intros Hb Hwf. unfold remove_bet in Hb.
  destruct (PyDict.get (active_superquotes (bot w)) bid) as [bet|] eqn:Hbet; [|done].
  rewrite (wf_alias _ Hwf _ _ Hbet) in Hb. cbn zeta in Hb.
  exists bet. split; [by apply (wf_alias _ Hwf)|].
  repeat (match type of Hb with
          | context [match ?x with _ => _ end] => destruct x; try done
          end).
  by injection Hb as <-.
Qed.



(** ** Cycles that complete *)

Lemma has_fields_touch ts r : has_fields r -> has_fields (touch ts r).
Proof. unfold has_fields. by rewrite !get_touch. Qed.

Lemma has_fields_deactivate r : has_fields r -> has_fields (deactivate r).
Proof. unfold has_fields, deactivate. by rewrite !get_set_ne. Qed.

Lemma has_fields_new d :
  has_fields (PyDict.set (info_dict d) "active" (VBool true)).
Proof. repeat split; by eexists. Qed.

Lemma handle_bet_complete d w w1 :
  handle_bet d w = (None, w1) -> wf (bot w) -> complete (bot w) ->
  complete (bot w1).
Proof.
  intros Hd Hwf Hc.
  destruct (handle_bet_cases _ _ _ Hd Hwf) as [_ [(Hin & l & Hl & Hlt & ->) | (Hnin & ->)]];
    intros k l0; cbn [heap active_superquotes].
  - intros Hk. destruct (decide (l = l0)) as [<-|Hne].
    + rewrite deref_alter_eq by done. apply has_fields_touch. by eapply Hc.
    + rewrite deref_alter_ne by done. by eapply Hc.
  - destruct (decide (_generate_id d = k)) as [<-|Hne].
    + rewrite get_set_eq. intros [= <-]. rewrite deref_app_new. apply has_fields_new.
    + rewrite get_set_ne by done. intros Hk. rewrite deref_app_old; [by eapply Hc|].
      eapply (wf_alloc _ Hwf), (wf_alias _ Hwf), Hk.
Qed.

Lemma scan_completes ds w :
  wf (bot w) -> complete (bot w) ->
  exists w', for_each handle_bet ds w = (None, w')
             /\ wf (bot w') /\ complete (bot w').
Proof.
  revert w. induction ds as [|d ds IH]; intros w Hwf Hc; cbn [for_each]; [by exists w|].
  assert (exists w1, handle_bet d w = (None, w1)) as [w1 Hd].
  { destruct (decide (_generate_id d ∈ PyDict.keys (active_superquotes (bot w))))
      as [Hin|Hnin].
    - destruct (elem_keys_get _ _ Hin) as [l Hl]. apply (wf_alias _ Hwf) in Hl.
      rewrite (handle_bet_active _ _ _ Hin Hl). by eexists.
    - rewrite (handle_bet_new _ _ Hnin). by eexists. }
  rewrite Hd. apply IH; [by eapply handle_bet_wf | by eapply handle_bet_complete].
Qed.

Lemma remove_bet_completes bid w :
  wf (bot w) -> complete (bot w) ->
  bid ∈ PyDict.keys (active_superquotes (bot w)) ->
  exists w1, remove_bet bid w = (None, w1)
             /\ wf (bot w1) /\ complete (bot w1)
             /\ forall k, k ∈ PyDict.keys (active_superquotes (bot w1))
                          <-> k <> bid /\ k ∈ PyDict.keys (active_superquotes (bot w)).
Proof.
  intros Hwf Hc Hin. destruct (elem_keys_get _ _ Hin) as [l Hl].
  pose proof (wf_alias _ Hwf _ _ Hl) as Hh.
  pose proof (wf_alloc _ Hwf _ _ Hh) as Hlt.
  destruct (has_fields_deactivate _ (Hc _ _ Hl)) as ([m Hm] & [oo Hoo] & [on Hon]).
  assert (remove_bet bid w
          = (None,
             mkCycle (mkState (alter deactivate l (heap (bot w)))
                              (PyDict.remove (active_superquotes (bot w)) bid)
                              (history (bot w)))
                     (current_cycle_ids w)
                     (sent w ++ [SuperquoteEnded bid m oo on]))) as Hb.
  { unfold remove_bet. rewrite Hl, Hh. cbn zeta.
    rewrite deref_alter_eq by done. by rewrite Hm, Hoo, Hon. }
  eexists. split; [exact Hb|]. cbn [bot].
  split; [by apply wf_deactivate|]. split.
  - intros k l0 Hk. cbn [heap active_superquotes] in *.
    pose proof (get_Some_elem _ _ _ Hk) as Hk'.
    apply elem_keys_remove in Hk' as [Hne _]; [|apply (wf_active_keys _ Hwf)].
    rewrite get_remove_ne in Hk by done.
    rewrite deref_alter_ne; [by eapply Hc|].
    intros <-. apply Hne. eapply (wf_inj _ Hwf); [|exact Hh].
    by apply (wf_alias _ Hwf).
  - intros k. cbn [active_superquotes].
    by rewrite elem_keys_remove by apply (wf_active_keys _ Hwf).
Qed.

Lemma removal_completes bids w :
  wf (bot w) -> complete (bot w) -> NoDup bids ->
  (forall bid, bid ∈ bids -> bid ∈ PyDict.keys (active_superquotes (bot w))) ->
  exists w', for_each remove_bet bids w = (None, w') /\ complete (bot w').
Proof.
  revert w. induction bids as [|bid bids IH]; intros w Hwf Hc Hnd Hin;
    cbn [for_each]; [by exists w|].
  apply NoDup_cons in Hnd as [Hbid Hnd].
  destruct (remove_bet_completes bid w Hwf Hc) as (w1 & -> & Hwf1 & Hc1 & Hkeys).
  { apply Hin, list_elem_of_here. }
  apply IH; try done. intros b Hb. apply Hkeys. split.
  - by intros ->.
  - by apply Hin, list_elem_of_further.
Qed.

(** When no query on a container raises and every active record has its
    fields, the cycle completes, and the records still have their fields. *)
Lemma run_cycle_completes cs st :
  wf st -> complete st -> Forall (fun c => boost_count c <> None) cs ->
  exists evs st1, run_cycle cs st = (None, evs, st1) /\ complete st1.
Proof.
  intros Hwf Hc Hcs. unfold run_cycle. rewrite scan_candidates by done.
  destruct (scan_completes (candidates cs) (mkCycle st [] []) Hwf Hc)
    as (wA & -> & HwfA & HcA).
  destruct (removal_completes (removed_ids wA) wA HwfA HcA) as (wB & -> & HcB).
  - apply NoDup_filter, (wf_active_keys _ HwfA).
  - by intros bid [_ Hbid]%list_elem_of_filter.
  - by eexists _, _.
Qed.

Lemma complete_empty : complete st_empty.
Proof. intros k l. done. Qed.

(** ** Running a cycle twice *)







(** * Further properties *)

(** ** The shape of a fingerprint *)

Lemma length_le_bytes n x : length (MD5.le_bytes n x) = n.
Proof. revert x. induction n as [|n IH]; intros x; simpl; [done|]. by rewrite IH. Qed.

Lemma le_bytes_range n x :
  Forall (fun b => (0 <= b < 256)%Z) (MD5.le_bytes n x).
Proof.
  revert x. induction n as [|n IH]; intros x; simpl; constructor; [|apply IH].
  change 255%Z with (Z.ones 8). rewrite Z.land_ones by lia.
  apply Z.mod_pos_bound. lia.
Qed.

Lemma digest_shape msg :
  length (MD5.digest msg) = 16
  /\ Forall (fun b => (0 <= b < 256)%Z) (MD5.digest msg).
Proof.
  unfold MD5.digest.
  destruct (fold_left MD5.process_block _ MD5.init) as [[[a b] c] d].
  split.
  - by rewrite !length_app, !length_le_bytes.
  - rewrite !Forall_app. repeat split; apply le_bytes_range.
Qed.

Lemma hex_digit_is_hex x : (0 <= x < 16)%Z -> is_hex (MD5.hex_digit x) = true.
Proof.
  intros Hx.
  assert (x = 0 \/ x = 1 \/ x = 2 \/ x = 3 \/ x = 4 \/ x = 5 \/ x = 6 \/ x = 7
          \/ x = 8 \/ x = 9 \/ x = 10 \/ x = 11 \/ x = 12 \/ x = 13 \/ x = 14
          \/ x = 15)%Z as Hcases by lia.
  repeat (destruct Hcases as [->|Hcases]; [reflexivity|]). by subst.
Qed.

Lemma length_string_of_list_ascii l :
  String.length (string_of_list_ascii l) = length l.
Proof. induction l as [|c l IH]; simpl; [done|]. by rewrite IH. Qed.

Lemma hex_of_bytes_shape bs :
  Forall (fun b => (0 <= b < 256)%Z) bs ->
  String.length (MD5.hex_of_bytes bs) = 2 * length bs
  /\ Forall (fun c => is_hex c = true) (list_ascii_of_string (MD5.hex_of_bytes bs)).
Proof.
  unfold MD5.hex_of_bytes.
  rewrite length_string_of_list_ascii, list_ascii_of_string_of_list_ascii.
  induction 1 as [|b bs Hb _ [IHlen IHhex]]; [by split|].
  cbn [flat_map app length]. split; [lia|].
  constructor; [|constructor; [|done]]; apply hex_digit_is_hex.
  - rewrite Z.shiftr_div_pow2 by lia. change (2 ^ 4)%Z with 16%Z.
    split; [apply Z.div_pos; lia | apply Z.div_lt_upper_bound; lia].
  - change 15%Z with (Z.ones 4). rewrite Z.land_ones by lia.
    apply Z.mod_pos_bound. lia.
Qed.

(** X1: the fingerprint of any item is a string of 32 lowercase hexadecimal
    digits. *)
Theorem generate_id_shape (info : Info) :
  String.length (_generate_id info) = 32
  /\ Forall (fun c => is_hex c = true) (list_ascii_of_string (_generate_id info)).
Proof.
  unfold _generate_id, MD5.hexdigest. cbn zeta.
  destruct (digest_shape (MD5.bytes_of_string
              (match_ info +:+ "|" +:+ market info +:+ "|" +:+ details info)))
    as [Hlen Hrange].
  destruct (hex_of_bytes_shape _ Hrange) as [Hl Hhex].
  split; [|done]. rewrite Hl, Hlen. done.
Qed.

Lemma append_assoc (a b c : string) : (a +:+ b) +:+ c = a +:+ (b +:+ c).
Proof.
  induction a as [|x a IH]; [done|].
  change (String x ((a +:+ b) +:+ c) = String x (a +:+ (b +:+ c))). by rewrite IH.
Qed.

Lemma length_append (a b : string) :
  String.length (a +:+ b) = String.length a + String.length b.
Proof.
  induction a as [|x a IH]; [done|].
  change (S (String.length (a +:+ b)) = S (String.length a + String.length b)).
  by rewrite IH.
Qed.

(** X2: the separator of the fingerprint is ambiguous.  An item whose match
    is [a|b] and whose market is [c] has the fingerprint of the item whose
    match is [a] and whose market is [b|c], although the two items differ. *)
Theorem generate_id_separator_ambiguous (a b c d : string)
    (s1 s2 oo1 oo2 on1 on2 ts1 ts2 : string) :
  let i1 := mkInfo s1 d (a +:+ "|" +:+ b) c oo1 on1 ts1 in
  let i2 := mkInfo s2 d a (b +:+ "|" +:+ c) oo2 on2 ts2 in
  _generate_id i1 = _generate_id i2 /\ match_ i1 <> match_ i2.
Proof.
  cbn zeta. unfold _generate_id. cbn [match_ market details]. split.
  - f_equal. by rewrite !append_assoc.
  - intros H. apply (f_equal String.length) in H.
    rewrite !length_append in H. cbn in H. lia.
Qed.

(** ** Extraction *)

Lemma no_dot_replace_dot s : no_dot (replace_dot s).
Proof.
  unfold no_dot. induction s as [|c s IH]; simpl.
  - apply not_elem_of_nil.
  - apply not_elem_of_cons. split; [|done].
    destruct (Ascii.eqb_spec c "."%char) as [->|Hne]; [done|congruence].
Qed.

Lemma no_dot_NA : no_dot NA.
Proof. unfold no_dot. cbn. rewrite !not_elem_of_cons. repeat split; try done. apply not_elem_of_nil. Qed.

(** X3: when a query of [_extract_bet_info] raises, the boosted odds of the
    result are "N/A": the container is skipped by the guard of the loop and
    the cycle goes on as if it were not on the page. *)
Theorem extraction_error_drops_item (c : container) :
  extraction_raises c ->
  odds_new (_extract_bet_info c) = NA
  /\ candidate c = None
  /\ (boost_count c <> None -> forall w, handle_container c w = (None, w)).
Proof.
  intros Hr.
  assert (odds_new (_extract_bet_info c) = NA) as Hna.
  { unfold extraction_raises in Hr. unfold _extract_bet_info.
    destruct (icon c) as [| |[x|]], (text_el c), (match_el c), (market_el c),
      (old_odds c), (new_odds c); try reflexivity;
      exfalso; intuition congruence. }
  assert (candidate c = None) as Hc.
  { unfold candidate. destruct (boost_count c) as [[|n]|]; try done.
    cbn zeta. rewrite Hna. by rewrite orb_true_r. }
  split; [done|]. split; [done|]. intros Hb w. by apply handle_container_skip.
Qed.

Lemma extraction_error_drops_item_witness :
  extraction_raises c_market_raises
  /\ odds_new (_extract_bet_info c_market_raises) = NA
  /\ candidate c_market_raises = None.
Proof.
  assert (extraction_raises c_market_raises) as H.
  { right. right. right. left. reflexivity. }
  destruct (extraction_error_drops_item c_market_raises H) as (H1 & H2 & _).
  split; [exact H|]. split; [exact H1|exact H2].
Defined.

(** X4: the odds of an extracted item are the sentinel "N/A" or the text
    read with every point replaced by a comma, so they never hold a decimal
    point. *)
Theorem extracted_odds_have_no_dot (c : container) :
  (odds_old (_extract_bet_info c) = NA
   \/ exists s, old_odds c = Present s
                /\ odds_old (_extract_bet_info c) = replace_dot s)
  /\ (odds_new (_extract_bet_info c) = NA
      \/ exists s, new_odds c = Present s
                   /\ odds_new (_extract_bet_info c) = replace_dot s)
  /\ no_dot (odds_old (_extract_bet_info c))
  /\ no_dot (odds_new (_extract_bet_info c)).
Proof.
  unfold _extract_bet_info.
  destruct (icon c) as [| |[x|]], (text_el c), (match_el c), (market_el c),
    (old_odds c), (new_odds c);
    cbn; (split; [|split; [|split]]);
    first [ apply no_dot_NA | apply no_dot_replace_dot
          | left; reflexivity | right; eexists; split; reflexivity ].
Qed.

(** ** What a cycle does to the two dictionaries *)

Lemma filter_ext_in {A : Type} (P Q : A -> Prop) `{!forall x, Decision (P x)}
    `{!forall x, Decision (Q x)} (l : list A) :
  (forall x, x ∈ l -> P x <-> Q x) -> filter P l = filter Q l.
Proof.
  induction l as [|x l IH]; intros Hext; [done|].
  assert (filter P l = filter Q l) as IH'.
  { apply IH. intros y Hy. apply Hext. by apply list_elem_of_further. }
  destruct (decide (P x)) as [HP|HP].
  - rewrite !filter_cons_True; [by rewrite IH'| |done].
    apply Hext; [apply list_elem_of_here|done].
  - rewrite !filter_cons_False; [done| |done].
    intros HQ. apply HP, Hext; [apply list_elem_of_here|done].
Qed.

Lemma filter_all {A : Type} (P : A -> Prop) `{!forall x, Decision (P x)} (l : list A) :
  Forall P l -> filter P l = l.
Proof. induction 1 as [|x l Hx _ IH]; [done|]. by rewrite filter_cons_True, IH. Qed.

Lemma handle_bet_total d w :
  wf (bot w) -> exists w1, handle_bet d w = (None, w1).
Proof.
  intros Hwf.
  destruct (decide (_generate_id d ∈ PyDict.keys (active_superquotes (bot w))))
    as [Hin|Hnin].
  - destruct (elem_keys_get _ _ Hin) as [l Hl]. apply (wf_alias _ Hwf) in Hl.
    rewrite (handle_bet_active _ _ _ Hin Hl). by eexists.
  - rewrite (handle_bet_new _ _ Hnin). by eexists.
Qed.

Lemma candidates_cons c l :
  candidates (c :: l)
  = match candidate c with Some d => d :: candidates l | None => candidates l end.
Proof. reflexivity. Qed.

(** A scan of the containers either reads them all, or stops at the first
    container whose boost query raises, having handled the ones before. *)
Lemma scan_prefix cs w r w' :
  for_each handle_container cs w = (r, w') -> wf (bot w) ->
  (r = None /\ Forall (fun c => boost_count c <> None) cs
   /\ for_each handle_bet (candidates cs) w = (None, w'))
  \/ (r = Some PlaywrightError
      /\ exists pre c post, cs = pre ++ c :: post /\ boost_count c = None
           /\ Forall (fun c => boost_count c <> None) pre
           /\ for_each handle_bet (candidates pre) w = (None, w')).
Proof.
  revert w. induction cs as [|c cs IH]; intros w; cbn [for_each].
  - intros [= <- <-] _. left. by repeat split.
  - intros Hrun Hwf. destruct (boost_count c) as [n|] eqn:Hb.
    + assert (exists w1, handle_container c w = (None, w1) /\ wf (bot w1)
                /\ forall l, for_each handle_bet (candidates (c :: l)) w
                             = for_each handle_bet (candidates l) w1)
        as (w1 & Hc & Hwf1 & Hcons).
      { destruct (candidate c) as [d|] eqn:Hd.
        - rewrite (handle_container_candidate _ _ _ Hd).
          destruct (handle_bet_total d w Hwf) as [w1 Hw1].
          exists w1. split; [done|]. split; [by eapply handle_bet_wf|].
          intros l. rewrite candidates_cons, Hd. cbn [for_each]. by rewrite Hw1.
        - exists w. rewrite handle_container_skip by (done || congruence).
          split; [done|]. split; [done|]. intros l. by rewrite candidates_cons, Hd. }
      rewrite Hc in Hrun.
      destruct (IH _ Hrun Hwf1) as [(-> & Hall & Hscan)
                                   |(-> & pre & c0 & post & -> & Hc0 & Hpre & Hscan)].
      * left. split; [done|]. split; [constructor; [congruence|done]|].
        by rewrite Hcons.
      * right. split; [done|]. exists (c :: pre), c0, post.
        split; [done|]. split; [done|]. split; [constructor; [congruence|done]|].
        by rewrite Hcons.
    + unfold handle_container in Hrun. rewrite Hb in Hrun. injection Hrun as <- <-.
      right. split; [done|]. exists [], c, cs. by repeat split.
Qed.

Lemma handle_container_history c w r w1 :
  handle_container c w = (r, w1) ->
  exists new, PyDict.keys (history (bot w1)) = PyDict.keys (history (bot w)) ++ new.
Proof.
  unfold handle_container, handle_bet.
  destruct (boost_count c) as [[|n]|];
    try (intros [= _ <-]; exists []; by rewrite app_nil_r).
  destruct (_ || _); [intros [= _ <-]; exists []; by rewrite app_nil_r|].
  destruct (negb _).
  - intros [= _ <-]. cbn [bot history].
    destruct (decide (_generate_id (_extract_bet_info c)
                        ∈ PyDict.keys (history (bot w)))).
    + rewrite keys_set_old by done. exists []. by rewrite app_nil_r.
    + rewrite keys_set_new by done. by eexists.
  - destruct (PyDict.get _ _); intros [= _ <-]; exists []; by rewrite app_nil_r.
Qed.

Lemma remove_bet_history bid w r w1 :
  remove_bet bid w = (r, w1) -> history (bot w1) = history (bot w).
Proof.
  unfold remove_bet.
  repeat (match goal with
          | |- context [match ?x with _ => _ end] => destruct x
          end); by intros [= _ <-].
Qed.

(** X5: a cycle never deletes or moves a record of the History Store: the
    keys of [history] after the cycle, however it ends, are the keys before
    it, in the same order, followed by the new ones. *)
Theorem history_only_grows (cs : list container) (st : State) :
  exists new,
    PyDict.keys (history (run_cycle cs st).2)
    = PyDict.keys (history st) ++ new.
Proof.
  set (P := fun w : Cycle =>
              exists new, PyDict.keys (history (bot w))
                          = PyDict.keys (history st) ++ new).
  assert (P (mkCycle st [] [])) as H0 by (exists []; by rewrite app_nil_r).
  unfold run_cycle.
  destruct (for_each handle_container cs _) as [r w1] eqn:H1.
  assert (P w1) as Hw1.
  { eapply (for_each_invariant P); [|exact H0|exact H1].
    intros c w r' w' [new Hnew] [new' Hnew']%handle_container_history.
    exists (new ++ new'). by rewrite Hnew', Hnew, app_assoc. }
  destruct r as [e|]; [exact Hw1|].
  destruct (for_each remove_bet _ w1) as [r2 w2] eqn:H2. cbn [snd].
  eapply (for_each_invariant P); [|exact Hw1|exact H2].
  intros bid w r' w' [new Hnew] Hb%remove_bet_history.
  exists new. by rewrite Hb.
Qed.

Lemma removal_keys bids w w' :
  for_each remove_bet bids w = (None, w') -> wf (bot w) ->
  PyDict.keys (active_superquotes (bot w'))
  = filter (fun k => k ∉ bids) (PyDict.keys (active_superquotes (bot w))).
Proof.
  revert w. induction bids as [|bid bids IH]; intros w; cbn [for_each].
  - intros [= <-] _. symmetry. apply filter_all, Forall_forall.
    intros k _. apply not_elem_of_nil.
  - destruct (remove_bet bid w) as [[e|] w1] eqn:Hb; [done|].
    intros Hrest Hwf.
    destruct (remove_bet_cases _ _ _ Hb Hwf) as (l & Hl & Hw1).
    rewrite (IH _ Hrest (remove_bet_wf _ _ _ _ Hwf Hb)), Hw1.
    cbn [active_superquotes]. rewrite keys_remove by apply (wf_active_keys _ Hwf).
    rewrite list_filter_filter. apply list_filter_iff.
    intros k. rewrite not_elem_of_cons. tauto.
Qed.

(** The keys of [active_superquotes] after a cycle that completes. *)
Lemma run_cycle_active_keys cs st evs st' :
  wf st -> run_cycle cs st = (None, evs, st') ->
  PyDict.keys (active_superquotes st')
  = filter (fun k => k ∈ (_generate_id <$> candidates cs))
           (PyDict.keys (active_superquotes st))
    ++ (_generate_id <$> new_items (PyDict.keys (active_superquotes st))
                                   (candidates cs)).
Proof.
  intros Hwf. unfold run_cycle.
  destruct (for_each handle_container cs _) as [[e|] wA] eqn:HA; [done|].
  destruct (for_each remove_bet _ wA) as [r wB] eqn:HB. intros [= -> _ <-].
  rewrite scan_candidates in HA by (by eapply scan_no_probe_error).
  assert (wf (bot wA)) as HwfA.
  { eapply (for_each_invariant (fun w => wf (bot w)));
      [apply handle_bet_wf| |exact HA]. done. }
  destruct (scan_spec _ _ _ HA) as (Hids & _ & Hkeys). cbn in Hids, Hkeys.
  rewrite (removal_keys _ _ _ HB HwfA). unfold removed_ids.
  rewrite Hids, Hkeys.
  rewrite (filter_ext_in _ (fun k => k ∈ (_generate_id <$> candidates cs))).
  - rewrite filter_app. f_equal. apply filter_all, Forall_forall.
    intros k Hk%elem_new_items. tauto.
  - intros k Hk. rewrite list_elem_of_filter.
    destruct (decide (k ∈ (_generate_id <$> candidates cs))); tauto.
Qed.

(** X6: the diff of a cycle that completes.  The bets announced are the
    fingerprints of the items that were not active, the bets ended are the
    active fingerprints that no item carries, and the Active Set left holds
    exactly the fingerprints of the items: the surviving ones in their
    former order, then the new ones in the order of the page. *)
Theorem cycle_diff (cs : list container) (st : State) (evs : list event)
    (st' : State) :
  between_cycles st ->
  run_cycle cs st = (None, evs, st') ->
  let ids := _generate_id <$> candidates cs in
  let old := PyDict.keys (active_superquotes st) in
  PyDict.keys (active_superquotes st')
  = filter (fun k => k ∈ ids) old ++ added_ids evs
  /\ (forall k, k ∈ PyDict.keys (active_superquotes st') <-> k ∈ ids)
  /\ (forall k, k ∈ added_ids evs <-> k ∈ ids /\ k ∉ old)
  /\ ended_ids evs = filter (fun k => k ∉ ids) old.
Proof.
  intros Hst Hrun. cbn zeta. pose proof (between_cycles_wf _ Hst) as Hwf.
  pose proof (run_cycle_active_keys _ _ _ _ Hwf Hrun) as Hkeys.
  destruct (run_cycle_events _ _ _ _ Hrun) as (ended & -> & Hends).
  destruct (event_ids (new_items (PyDict.keys (active_superquotes st)) (candidates cs))
              _ _ Hends) as [-> ->].
  split; [done|]. split; [|split; [|done]].
  - intros k. rewrite Hkeys, elem_of_app, list_elem_of_filter, elem_new_items.
    destruct (decide (k ∈ PyDict.keys (active_superquotes st))); tauto.
  - intros k. apply elem_new_items.
Qed.

Lemma cycle_diff_witness :
  between_cycles st_ab
  /\ PyDict.keys (active_superquotes st_c)
     = filter (fun k => k ∈ (_generate_id <$> candidates [c_cd t0]))
              (PyDict.keys (active_superquotes st_ab))
       ++ added_ids [announce info_c; ended_ab]
  /\ ended_ids [announce info_c; ended_ab]
     = filter (fun k => k ∉ (_generate_id <$> candidates [c_cd t0]))
              (PyDict.keys (active_superquotes st_ab)).
Proof.
  assert (between_cycles st_ab) as Hst.
  { apply (after_cycle st_empty [c_ab "1.80" t0] None [announce info_a] st_ab).
    - apply (after_load NoFile st_empty []). reflexivity.
    - vm_compute. reflexivity. }
  assert (run_cycle [c_cd t0] st_ab = (None, [announce info_c; ended_ab], st_c))
    as Hrun by (vm_compute; reflexivity).
  destruct (cycle_diff _ _ _ _ Hst Hrun) as (H1 & _ & _ & H2).
  split; [exact Hst|]. split; [exact H1|exact H2].
Defined.

(** ** The ways a cycle ends *)

Lemma between_cycles_st_ab : between_cycles st_ab.
Proof.
  apply (after_cycle st_empty [c_ab "1.80" t0] None [announce info_a] st_ab).
  - apply (after_load NoFile st_empty []). reflexivity.
  - exact st_ab_reached.
Defined.

Lemma complete_st_ab : complete st_ab.
Proof.
  destruct (run_cycle_completes [c_ab "1.80" t0] st_empty wf_empty complete_empty)
    as (evs & st1 & Hrun & Hc); [by repeat constructor|].
  change t0 with "2024-01-01 10:00:00" in Hrun. rewrite st_ab_reached in Hrun. by injection Hrun as _ <-.
Qed.

Lemma removal_history bids w r w' :
  for_each remove_bet bids w = (r, w') -> history (bot w') = history (bot w).
Proof.
  apply (for_each_invariant (fun v => history (bot v) = history (bot w))
           remove_bet); [|done].
  intros bid v r1 v1 <- Hb. by eapply remove_bet_history.
Qed.

(** X7: from a state whose active records have the fields of the ending
    message, a cycle can only fail because the boost query of a container
    raises: it completes exactly when no such query raises, it never raises
    [KeyError], and the records it leaves have these fields again. *)
Theorem cycle_failure_modes (cs : list container) (st : State)
    (r : option exn) (evs : list event) (st' : State) :
  between_cycles st -> complete st ->
  run_cycle cs st = (r, evs, st') ->
  complete st'
  /\ (r = None \/ r = Some PlaywrightError)
  /\ (r = None <-> Forall (fun c => boost_count c <> None) cs).
Proof.
  intros Hst Hc. pose proof (between_cycles_wf _ Hst) as Hwf. unfold run_cycle.
  destruct (for_each handle_container cs _) as [r1 wA] eqn:HA.
  destruct (scan_prefix _ _ _ _ HA Hwf)
    as [(-> & Hall & Hscan)|(-> & pre & c & post & -> & Hb & _ & Hscan)].
  - destruct (scan_completes (candidates cs) (mkCycle st [] []) Hwf Hc)
      as (w' & Hw' & HwfA & HcA).
    rewrite Hscan in Hw'. injection Hw' as <-.
    destruct (removal_completes (removed_ids wA) wA HwfA HcA) as (wB & HB & HcB).
    { apply NoDup_filter, (wf_active_keys _ HwfA). }
    { by intros bid [_ Hbid]%list_elem_of_filter. }
    rewrite HB. intros [= <- _ <-]. split; [done|]. split; [by left|done].
  - destruct (scan_completes (candidates pre) (mkCycle st [] []) Hwf Hc)
      as (w' & Hw' & _ & HcA).
    rewrite Hscan in Hw'. injection Hw' as <-.
    intros [= <- _ <-]. split; [done|]. split; [by right|].
    split; [done|]. intros Hall. apply Forall_app in Hall as [_ Hall].
    apply Forall_cons in Hall as [Hc0 _]. done.
Qed.

Lemma cycle_failure_modes_witness :
  between_cycles st_empty /\ complete st_empty
  /\ complete st_ab
  /\ (@None exn = None <-> Forall (fun c => boost_count c <> None) [c_ab "1.80" t0]).
Proof.
  assert (between_cycles st_empty) as Hst.
  { apply (after_load NoFile st_empty []). reflexivity. }
  assert (run_cycle [c_ab "1.80" t0] st_empty = (None, [announce info_a], st_ab))
    as Hrun by (vm_compute; reflexivity).
  destruct (cycle_failure_modes _ _ _ _ _ Hst complete_empty Hrun) as (H1 & _ & H2).
  split; [exact Hst|]. split; [exact complete_empty|]. split; [exact H1|exact H2].
Defined.

(** X8: a page without any boosted bet ends every active bet.  From a
    state between two cycles whose active records have the fields of the
    ending message, when every boost query returns and no item passes the
    guards, the cycle completes: a message is sent for each key of the
    Active Set, in order, no bet is announced, the Active Set is left empty
    and the History Store keeps its keys. *)
Theorem empty_page_ends_all (cs : list container) (st : State) :
  between_cycles st -> complete st ->
  Forall (fun c => boost_count c <> None) cs -> candidates cs = [] ->
  exists evs st',
    run_cycle cs st = (None, evs, st')
    /\ added_ids evs = []
    /\ ended_ids evs = PyDict.keys (active_superquotes st)
    /\ active_superquotes st' = []
    /\ history st' = history st.
Proof.
  intros Hst Hc Hcs Hnone. pose proof (between_cycles_wf _ Hst) as Hwf.
  destruct (run_cycle_completes cs st Hwf Hc Hcs) as (evs & st' & Hrun & _).
  exists evs, st'. split; [done|].
  pose proof (run_cycle_active_keys _ _ _ _ Hwf Hrun) as Hkeys.
  destruct (run_cycle_events _ _ _ _ Hrun) as (ended & -> & Hends).
  rewrite Hnone in *. cbn [new_items fmap list_fmap app] in *.
  split; [by eapply ends_added_ids|]. split; [|split].
  - rewrite (ends_ended_ids _ _ Hends). apply filter_all, Forall_forall.
    intros k _. apply not_elem_of_nil.
  - rewrite app_nil_r in Hkeys. eapply fmap_nil_inv. unfold PyDict.keys in Hkeys.
    rewrite Hkeys. apply filter_none, Forall_forall.
    intros k _ Hk. by apply elem_of_nil in Hk.
  - unfold run_cycle in Hrun. rewrite scan_candidates, Hnone in Hrun by done.
    cbn [for_each] in Hrun.
    destruct (for_each remove_bet _ _) as [r2 w2] eqn:H2.
    injection Hrun as _ _ <-. by rewrite (removal_history _ _ _ _ H2).
Qed.

Lemma empty_page_ends_all_witness :
  between_cycles st_ab /\ complete st_ab
  /\ exists evs st',
       run_cycle [] st_ab = (None, evs, st')
       /\ added_ids evs = []
       /\ ended_ids evs = PyDict.keys (active_superquotes st_ab)
       /\ active_superquotes st' = []
       /\ history st' = history st_ab.
Proof.
  split; [exact between_cycles_st_ab|]. split; [exact complete_st_ab|].
  apply (empty_page_ends_all [] st_ab between_cycles_st_ab complete_st_ab);
    [constructor|reflexivity].
Defined.

(** ** Objects *)

(** X9: between two cycles the value of [active_superquotes] under a key is
    the very object [history] holds under that key, and no other key of
    [history] holds that object. *)
Theorem active_bet_is_history_object (st : State) (k : string) (l : nat) :
  between_cycles st ->
  PyDict.get (active_superquotes st) k = Some l ->
  PyDict.get (history st) k = Some l
  /\ l < length (heap st)
  /\ forall k', PyDict.get (history st) k' = Some l -> k' = k.
Proof.
  intros Hwf%between_cycles_wf Hk.
  pose proof (wf_alias _ Hwf _ _ Hk) as Hh.
  split; [done|]. split; [by eapply wf_alloc|].
  intros k' Hk'. by eapply (wf_inj _ Hwf).
Qed.

Lemma active_bet_is_history_object_witness :
  between_cycles st_ab
  /\ PyDict.get (active_superquotes st_ab) id_ab = Some 0
  /\ PyDict.get (history st_ab) id_ab = Some 0.
Proof.
  assert (PyDict.get (active_superquotes st_ab) id_ab = Some 0) as Hk
    by (vm_compute; reflexivity).
  destruct (active_bet_is_history_object st_ab id_ab 0 between_cycles_st_ab Hk)
    as [H _].
  split; [exact between_cycles_st_ab|]. split; [exact Hk|exact H].
Defined.

Lemma removal_frame bids w w' k :
  for_each remove_bet bids w = (None, w') -> wf (bot w) -> k ∉ bids ->
  forall l, PyDict.get (history (bot w)) k = Some l ->
            deref (heap (bot w')) l = deref (heap (bot w)) l.
Proof.
  revert w. induction bids as [|bid bids IH]; intros w; cbn [for_each].
  - by intros [= <-].
  - destruct (remove_bet bid w) as [[e|] w1] eqn:Hb; [done|].
    intros Hrest Hwf [Hne Hk]%not_elem_of_cons l Hl.
    destruct (remove_bet_cases _ _ _ Hb Hwf) as (l0 & Hl0 & Hw1).
    rewrite (IH _ Hrest (remove_bet_wf _ _ _ _ Hwf Hb) Hk l).
    + rewrite Hw1. cbn [heap]. apply deref_alter_ne.
      intros ->. apply Hne. by eapply (wf_inj _ Hwf).
    + by rewrite Hw1.
Qed.

Lemma handle_bet_record d w w1 :
  handle_bet d w = (None, w1) -> wf (bot w) ->
  exists l, PyDict.get (history (bot w1)) (_generate_id d) = Some l
            /\ PyDict.get (deref (heap (bot w1)) l) "timestamp"
               = Some (VStr (timestamp d))
            /\ PyDict.get (deref (heap (bot w1)) l) "active" = Some (VBool true).
Proof.
  intros Hd Hwf.
  destruct (handle_bet_cases _ _ _ Hd Hwf)
    as [_ [(_ & l & Hl & Hlt & ->) | (_ & ->)]]; cbn [heap history].
  - exists l. split; [done|]. rewrite deref_alter_eq by done.
    by rewrite get_touch_timestamp, get_touch_active.
  - eexists. rewrite get_set_eq. split; [done|]. by rewrite deref_app_new.
Qed.

(** X10: after a cycle that completes, the record of each fingerprint the
    page showed is active and carries the timestamp of the last item of the
    page with that fingerprint; it is the object of the Active Set too. *)
Theorem last_seen_timestamp (cs : list container) (st : State)
    (evs : list event) (st' : State) (pre post : list Info) (d : Info) :
  between_cycles st ->
  run_cycle cs st = (None, evs, st') ->
  candidates cs = pre ++ d :: post ->
  _generate_id d ∉ (_generate_id <$> post) ->
  exists l,
    PyDict.get (history st') (_generate_id d) = Some l
    /\ PyDict.get (active_superquotes st') (_generate_id d) = Some l
    /\ PyDict.get (deref (heap st') l) "timestamp" = Some (VStr (timestamp d))
    /\ PyDict.get (deref (heap st') l) "active" = Some (VBool true).
Proof.
  intros Hst Hrun Hcs Hlast. pose proof (between_cycles_wf _ Hst) as Hwf.
  pose proof (run_cycle_wf _ _ _ _ _ Hwf Hrun) as Hwf'.
  pose proof (run_cycle_active_keys _ _ _ _ Hwf Hrun) as Hkeys.
  unfold run_cycle in Hrun.
  destruct (for_each handle_container cs _) as [[e|] wA] eqn:HA; [done|].
  destruct (for_each remove_bet _ wA) as [r wB] eqn:HB. injection Hrun as -> _ <-.
  rewrite scan_candidates in HA by (by eapply scan_no_probe_error).
  destruct (scan_spec _ _ _ HA) as (Hids & _ & _). cbn in Hids.
  assert (wf (bot wA)) as HwfA.
  { eapply (for_each_invariant (fun w => wf (bot w)));
      [apply handle_bet_wf| |exact HA]. done. }
  rewrite Hcs, for_each_app in HA.
  destruct (for_each handle_bet pre _) as [[e|] w1] eqn:H1; [done|].
  cbn [for_each] in HA.
  destruct (handle_bet d w1) as [[e|] w2] eqn:H2; [done|].
  assert (wf (bot w1)) as Hwf1.
  { eapply (for_each_invariant (fun w => wf (bot w)));
      [apply handle_bet_wf| |exact H1]. done. }
  destruct (handle_bet_record _ _ _ H2 Hwf1) as (l & Hl & Hts & Hact).
  destruct (scan_frame _ _ _ _ HA (handle_bet_wf _ _ _ _ Hwf1 H2) Hlast)
    as [Hh Hobj].
  rewrite Hl in Hh. specialize (Hobj _ Hl).
  assert (_generate_id d ∈ (_generate_id <$> candidates cs)) as Hin.
  { rewrite Hcs, fmap_app, fmap_cons, elem_of_app, elem_of_cons. tauto. }
  assert (deref (heap (bot wB)) l = deref (heap (bot wA)) l) as HobjB.
  { eapply (removal_frame _ _ _ (_generate_id d) HB HwfA); [|done].
    intros [Hn _]%list_elem_of_filter. apply Hn. by rewrite Hids. }
  exists l. rewrite (removal_history _ _ _ _ HB), HobjB, Hobj.
  split; [done|]. split; [|done].
  assert (_generate_id d ∈ PyDict.keys (active_superquotes (bot wB))) as Hk.
  { rewrite Hkeys, elem_of_app, list_elem_of_filter, elem_new_items.
    destruct (decide (_generate_id d ∈ PyDict.keys (active_superquotes st))); tauto. }
  destruct (elem_keys_get _ _ Hk) as [l' Hl'].
  pose proof (wf_alias _ Hwf' _ _ Hl') as Hl''.
  rewrite (removal_history _ _ _ _ HB), Hh in Hl''. congruence.
Qed.

Lemma last_seen_timestamp_witness :
  between_cycles st_ab
  /\ exists l,
       PyDict.get (history st_ab) id_ab = Some l
       /\ PyDict.get (deref (heap (run_cycle [c_ab "1.80" t1; c_ab "2.00" t1] st_ab).2) l)
                     "timestamp" = Some (VStr t1).
Proof.
  assert (between_cycles st_ab) as Hst.
  { apply (after_cycle st_empty [c_ab "1.80" t0] None [announce info_a] st_ab).
    - apply (after_load NoFile st_empty []). reflexivity.
    - vm_compute. reflexivity. }
  split; [exact Hst|].
  destruct (last_seen_timestamp [c_ab "1.80" t1; c_ab "2.00" t1] st_ab []
              (run_cycle [c_ab "1.80" t1; c_ab "2.00" t1] st_ab).2
              [info_a_t1] [] info_a2 Hst) as (l & Hl & _ & Hts & _).
  - vm_compute. reflexivity.
  - vm_compute. reflexivity.
  - apply not_elem_of_nil.
  - exists 0. split; [vm_compute; reflexivity|].
    assert (l = 0) as -> by (vm_compute in Hl; congruence). exact Hts.
Defined.

(** ** Messages over several cycles *)

Lemma track_app k b e1 e2 :
  track k b (e1 ++ e2) = track k b e1 ≫= fun b' => track k b' e2.
Proof.
  revert b. induction e1 as [|e e1 IH]; intros b; [done|].
  destruct e as [k' d|k' m oo on]; cbn [app track];
    destruct (String.eqb k' k), b; cbn; auto.
Qed.

Lemma track_announce k b ds :
  NoDup (_generate_id <$> ds) ->
  track k b (announce <$> ds)
  = if decide (k ∈ (_generate_id <$> ds))
    then (if b then None else Some true) else Some b.
Proof.
  revert b. induction ds as [|d ds IH]; intros b.
  - intros _. by destruct (decide _) as [H%elem_of_nil|].
  - rewrite !fmap_cons, NoDup_cons. intros [Hnin Hnd]. unfold announce at 1. cbn [track].
    destruct (String.eqb_spec (_generate_id d) k) as [<-|Hne].
    + rewrite (decide_True (P := _ ∈ _ :: _)) by apply list_elem_of_here.
      destruct b; [done|]. rewrite IH by done. by rewrite decide_False.
    + rewrite IH by done.
      destruct (decide (k ∈ (_generate_id <$> ds))) as [Hin|Hnin'].
      * rewrite (decide_True (P := _ ∈ _ :: _)); [done|by apply list_elem_of_further].
      * rewrite (decide_False (P := _ ∈ _ :: _)); [done|].
        rewrite elem_of_cons. intros [->|?]; done.
Qed.

Lemma track_ends k b bids ended :
  Forall2 ends bids ended -> NoDup bids ->
  track k b ended
  = if decide (k ∈ bids) then (if b then Some false else None) else Some b.
Proof.
  intros Hends. revert b.
  induction Hends as [|bid e bids ended (m & oo & on & ->) _ IH]; intros b.
  - intros _. by destruct (decide _) as [H%elem_of_nil|].
  - rewrite NoDup_cons. intros [Hnin Hnd]. cbn [track].
    destruct (String.eqb_spec bid k) as [<-|Hne].
    + rewrite (decide_True (P := _ ∈ _ :: _)) by apply list_elem_of_here.
      destruct b; [|done]. rewrite IH by done. by rewrite decide_False.
    + rewrite IH by done.
      destruct (decide (k ∈ bids)) as [Hin|Hnin'].
      * rewrite (decide_True (P := _ ∈ _ :: _)); [done|by apply list_elem_of_further].
      * rewrite (decide_False (P := _ ∈ _ :: _)); [done|].
        rewrite elem_of_cons. intros [->|?]; done.
Qed.

Lemma contains_keys {A : Type} (d : dict A) k :
  PyDict.contains d k = bool_decide (k ∈ PyDict.keys d).
Proof.
  destruct (PyDict.contains d k) eqn:E; symmetry.
  - by apply bool_decide_eq_true, contains_true.
  - by apply bool_decide_eq_false, contains_false.
Qed.

Lemma cycle_track cs st r evs st' k :
  wf st -> complete st -> run_cycle cs st = (r, evs, st') ->
  track k (PyDict.contains (active_superquotes st) k) evs
  = Some (PyDict.contains (active_superquotes st') k)
  /\ wf st' /\ complete st'.
Proof.
  intros Hwf Hc. unfold run_cycle.
  destruct (for_each handle_container cs _) as [r1 wA] eqn:HA.
  rewrite !contains_keys.
  destruct (scan_prefix _ _ _ _ HA Hwf)
    as [(-> & _ & Hscan)|(-> & pre & c & post & _ & _ & _ & Hscan)].
  - destruct (scan_completes (candidates cs) (mkCycle st [] []) Hwf Hc)
      as (w' & Hw' & HwfA & HcA).
    rewrite Hscan in Hw'. injection Hw' as <-.
    destruct (removal_completes (removed_ids wA) wA HwfA HcA) as (wB & HB & HcB).
    { apply NoDup_filter, (wf_active_keys _ HwfA). }
    { by intros bid [_ Hbid]%list_elem_of_filter. }
    rewrite HB. intros [= <- <- <-].
    assert (wf (bot wB)) as HwfB.
    { eapply (for_each_invariant (fun w => wf (bot w)));
        [apply remove_bet_wf|exact HwfA|exact HB]. }
    split; [|done].
    destruct (scan_spec _ _ _ Hscan) as (Hids & Hsent & Hkeys).
    destruct (removal_spec _ _ _ HB) as (ended & HsentB & Hends).
    pose proof (removal_keys _ _ _ HB HwfA) as HkeysB.
    cbn [current_cycle_ids sent bot app] in Hids, Hsent, Hkeys.
    rewrite HsentB, Hsent, track_app, track_announce by apply NoDup_new_items.
    pose proof (elem_new_items (PyDict.keys (active_superquotes st)) (candidates cs) k)
      as Hnew.
    assert (k ∈ removed_ids wA
            <-> k ∈ PyDict.keys (active_superquotes st)
                /\ k ∉ (_generate_id <$> candidates cs)) as Hrem.
    { unfold removed_ids. rewrite list_elem_of_filter, Hids, Hkeys, elem_of_app, Hnew.
      tauto. }
    assert (k ∈ PyDict.keys (active_superquotes (bot wB))
            <-> k ∈ (_generate_id <$> candidates cs)) as Hfin.
    { rewrite HkeysB, list_elem_of_filter, Hrem, Hkeys, elem_of_app, Hnew.
      destruct (decide (k ∈ PyDict.keys (active_superquotes st))),
               (decide (k ∈ (_generate_id <$> candidates cs))); tauto. }
    assert (NoDup (removed_ids wA)) as Hnd
      by apply NoDup_filter, (wf_active_keys _ HwfA).
    destruct (decide (k ∈ _)) as [Hadd|Hadd].
    + apply Hnew in Hadd as [Hin Hold].
      rewrite (bool_decide_eq_false_2 _ Hold). cbn.
      rewrite (track_ends _ _ _ _ Hends Hnd), decide_False by tauto.
      by rewrite bool_decide_eq_true_2 by tauto.
    + cbn. rewrite (track_ends _ _ _ _ Hends Hnd).
      destruct (decide (k ∈ removed_ids wA)) as [Hr|Hr].
      * apply Hrem in Hr as [Hold Hin]. rewrite (bool_decide_eq_true_2 _ Hold).
        by rewrite bool_decide_eq_false_2 by tauto.
      * f_equal. apply bool_decide_ext.
        destruct (decide (k ∈ PyDict.keys (active_superquotes st))),
                 (decide (k ∈ (_generate_id <$> candidates cs))); tauto.
  - destruct (scan_completes (candidates pre) (mkCycle st [] []) Hwf Hc)
      as (w' & Hw' & HwfA & HcA).
    rewrite Hscan in Hw'. injection Hw' as <-.
    intros [= <- <- <-]. split; [|done].
    destruct (scan_spec _ _ _ Hscan) as (_ & Hsent & Hkeys).
    cbn [sent bot app] in Hsent, Hkeys.
    rewrite Hsent, track_announce by apply NoDup_new_items.
    pose proof (elem_new_items (PyDict.keys (active_superquotes st)) (candidates pre) k)
      as Hnew.
    destruct (decide (k ∈ _)) as [Hadd|Hadd].
    + rewrite bool_decide_eq_false_2 by tauto.
      rewrite bool_decide_eq_true_2; [done|]. rewrite Hkeys, elem_of_app. tauto.
    + f_equal. apply bool_decide_ext. rewrite Hkeys, elem_of_app. tauto.
Qed.

(** X11: over any number of cycles of one process, failed ones included, the
    messages about a bet alternate: it is announced only when it is not
    active, ended only when it is, and after the cycles it is active exactly
    when the last message about it announced it (or, without any message,
    when it was active before). *)
Theorem messages_alternate (pages : list (list container)) (st : State)
    (k : string) :
  between_cycles st -> complete st ->
  track k (PyDict.contains (active_superquotes st) k) (run_cycles pages st).1
  = Some (PyDict.contains (active_superquotes (run_cycles pages st).2) k).
Proof.
  intros Hwf%between_cycles_wf. revert st Hwf.
  induction pages as [|cs pages IH]; intros st Hwf Hc; [done|].
  cbn [run_cycles]. destruct (run_cycle cs st) as [[r evs] st1] eqn:Hrun.
  destruct (cycle_track _ _ _ _ _ k Hwf Hc Hrun) as (Htrack & Hwf1 & Hc1).
  specialize (IH st1 Hwf1 Hc1).
  destruct (run_cycles pages st1) as [evs' st2]. cbn [fst snd] in *.
  by rewrite track_app, Htrack.
Qed.

Lemma messages_alternate_witness :
  between_cycles st_empty /\ complete st_empty
  /\ (run_cycles [[c_ab "1.80" t0]; []; [c_ab "2.00" t1]] st_empty).1
     = [announce info_a; ended_ab; announce info_a2]
  /\ track id_ab (PyDict.contains (active_superquotes st_empty) id_ab)
       (run_cycles [[c_ab "1.80" t0]; []; [c_ab "2.00" t1]] st_empty).1
     = Some (PyDict.contains
               (active_superquotes
                  (run_cycles [[c_ab "1.80" t0]; []; [c_ab "2.00" t1]] st_empty).2)
               id_ab).
Proof.
  assert (between_cycles st_empty) as Hst.
  { apply (after_load NoFile st_empty []). reflexivity. }
  split; [exact Hst|]. split; [exact complete_empty|].
  split; [vm_compute; reflexivity|].
  exact (messages_alternate [[c_ab "1.80" t0]; []; [c_ab "2.00" t1]]
           st_empty id_ab Hst complete_empty).
Defined.

(** ** Saving, then loading *)

Lemma set_new {A : Type} (d : dict A) k v :
  k ∉ PyDict.keys d -> PyDict.set d k v = d ++ [(k, v)].
Proof.
  unfold PyDict.keys. induction d as [|[k' v'] d IH]; csimpl; [done|].
  rewrite not_elem_of_cons. intros [Hne Hnin].
  destruct (String.eqb_spec k' k); [congruence|]. by rewrite IH.
Qed.

Lemma of_pairs_NoDup {A : Type} (pairs : list (string * A)) :
  NoDup (PyDict.keys pairs) -> PyDict.of_pairs pairs = pairs.
Proof.
  unfold PyDict.of_pairs.
  assert (forall d : dict A, NoDup (PyDict.keys (d ++ pairs)) ->
            fold_left (fun d kv => PyDict.set d kv.1 kv.2) pairs d = d ++ pairs)
    as Hgen; [|apply (Hgen [])].
  induction pairs as [|[k v] pairs IH]; intros d Hnd; cbn [fold_left fst snd].
  - by rewrite app_nil_r.
  - rewrite set_new.
    + rewrite IH; rewrite <- app_assoc; done.
    + unfold PyDict.keys in *. rewrite fmap_app, fmap_cons in Hnd.
      apply NoDup_app in Hnd as (_ & Hd & _). intros Hk. apply (Hd _ Hk).
      apply list_elem_of_here.
Qed.

Lemma pyval_nested_ind (P : pyval -> Prop) :
  P VNone -> (forall b, P (VBool b)) -> (forall r, P (VNum r)) ->
  (forall s, P (VStr s)) ->
  (forall l, Forall P l -> P (VList l)) ->
  (forall m, Forall (fun kv => P kv.2) m -> P (VDict m)) ->
  forall v, P v.
Proof.
  intros HNone HBool HNum HStr HList HDict.
  fix IH 1. intros [|b|r|s|l|m].
  - exact HNone.
  - apply HBool.
  - apply HNum.
  - apply HStr.
  - apply HList. induction l as [|x l IHl]; constructor; [apply IH|exact IHl].
  - apply HDict. induction m as [|[k x] m IHm]; constructor; [apply IH|exact IHm].
Qed.

Lemma elem_set {A : Type} (d : dict A) k v kv :
  kv ∈ PyDict.set d k v -> kv ∈ d \/ kv = (k, v).
Proof.
  induction d as [|[k' v'] d IH]; cbn [PyDict.set].
  - intros ->%list_elem_of_singleton. by right.
  - destruct (String.eqb k' k); rewrite !elem_of_cons; [tauto|].
    intros [->|H]; [by left; left|]. destruct (IH H); tauto.
Qed.

Lemma elem_of_pairs {A : Type} (pairs : list (string * A)) kv :
  kv ∈ PyDict.of_pairs pairs -> kv ∈ pairs.
Proof.
  unfold PyDict.of_pairs.
  assert (forall d : dict A,
            kv ∈ fold_left (fun d kv => PyDict.set d kv.1 kv.2) pairs d ->
            kv ∈ d \/ kv ∈ pairs) as Hgen.
  { induction pairs as [|[k v] pairs IH]; intros d; cbn [fold_left fst snd];
      [by left|].
    intros [[H| ->]%elem_set|H]%IH; rewrite elem_of_cons; tauto. }
  intros [H|H]%Hgen; [by apply elem_of_nil in H|done].
Qed.

Lemma map_values_fixed (m : list (string * pyval)) :
  Forall (fun kv => merge_keys kv.2 = kv.2) m ->
  map (fun kv => match kv with (k, x) => (k, merge_keys x) end) m = m.
Proof.
  induction 1 as [|[k x] m Hx _ IH]; [done|]. cbn in *. by rewrite Hx, IH.
Qed.

Lemma merge_members_merged (rec : list (string * pyval)) :
  merged rec -> merge_members rec = rec.
Proof.
  intros [Hnd Hval]. unfold merge_members.
  rewrite map_values_fixed by done. by apply of_pairs_NoDup.
Qed.

Lemma merge_keys_idem v : merge_keys (merge_keys v) = merge_keys v.
Proof.
  induction v as [|b|r|s|l IH|m IH] using pyval_nested_ind; try done.
  - cbn [merge_keys]. f_equal. rewrite map_map.
    induction IH as [|x l Hx _ IHl]; [done|]. cbn. by rewrite Hx, IHl.
  - cbn [merge_keys]. f_equal. fold (merge_members m).
    fold (merge_members (merge_members m)). apply merge_members_merged. split.
    + apply NoDup_keys_of_pairs.
    + apply Forall_forall. intros kv Hkv%elem_of_pairs.
      apply list_elem_of_In, in_map_iff in Hkv as ([k x] & <- & Hin).
      apply list_elem_of_In in Hin. cbn.
      exact (proj1 (Forall_forall _ _) IH (k, x) Hin).
Qed.

Lemma merged_merge_members (m : list (string * pyval)) : merged (merge_members m).
Proof.
  split; [apply NoDup_keys_of_pairs|].
  apply Forall_forall. intros kv Hkv%elem_of_pairs.
  apply list_elem_of_In, in_map_iff in Hkv as ([k x] & <- & _). cbn.
  apply merge_keys_idem.
Qed.

Lemma merged_set (rec : list (string * pyval)) k v :
  merged rec -> merge_keys v = v -> merged (PyDict.set rec k v).
Proof.
  intros [Hnd Hval] Hv. split; [by apply NoDup_keys_set|].
  apply Forall_forall. intros kv [Hkv| ->]%elem_set; [|done].
  exact (proj1 (Forall_forall _ _) Hval kv Hkv).
Qed.

Lemma merged_new_record (d : Info) :
  merged (PyDict.set (info_dict d) "active" (VBool true)).
Proof.
  split; [cbn; by apply (bool_decide_unpack _)|]. cbn. by repeat constructor.
Qed.

Lemma handle_container_records c w r w1 :
  Forall merged (heap (bot w)) ->
  handle_container c w = (r, w1) ->
  Forall merged (heap (bot w1)).
Proof.
  intros Hh. unfold handle_container, handle_bet.
  destruct (boost_count c) as [[|n]|]; try (by intros [= _ <-]).
  destruct (_ || _); [by intros [= _ <-]|].
  destruct (negb _).
  - intros [= _ <-]. cbn [bot heap]. apply Forall_app. split; [done|].
    apply Forall_singleton, merged_new_record.
  - destruct (PyDict.get _ _); intros [= _ <-]; [|done]. cbn [bot heap].
    apply Forall_alter; [done|]. intros rec _ Hrec.
    apply merged_set; [|done]. by apply merged_set.
Qed.

Lemma remove_bet_records bid w r w1 :
  Forall merged (heap (bot w)) ->
  remove_bet bid w = (r, w1) ->
  Forall merged (heap (bot w1)).
Proof.
  intros Hh. unfold remove_bet.
  assert (forall l, Forall merged (alter deactivate l (heap (bot w)))) as Halt.
  { intros l. apply Forall_alter; [done|]. intros rec _ Hrec.
    by apply merged_set. }
  repeat (match goal with
          | |- context [match ?x with _ => _ end] => destruct x
          end); intros [= _ <-]; cbn [bot heap]; done.
Qed.

Lemma as_records_merged items recs :
  as_records items = Some recs -> Forall merged recs.*2.
Proof.
  revert recs. induction items as [|[k v] items IH]; intros recs; simpl.
  - intros [= <-]. constructor.
  - destruct v; try done. destruct (as_records items) as [rs|]; [|done].
    intros [= <-]. csimpl. constructor; [apply merged_merge_members|by apply IH].
Qed.

Lemma records_merged st : between_cycles st -> Forall merged (heap st).
Proof.
  induction 1 as [f st log Hinit | st cs r evs st' _ IH Hrun].
  - revert Hinit. unfold __init__, _load_history. destruct f as [|[| |v]].
    + intros [= <- _]. constructor.
    + intros [= <- _]. constructor.
    + done.
    + destruct v as [| | | | |members]; try done.
      destruct (as_records (PyDict.of_pairs members)) as [recs|] eqn:Hrecs; [|done].
      intros [= <- _]. cbn. by eapply as_records_merged.
  - revert Hrun. unfold run_cycle.
    destruct (for_each handle_container cs _) as [r1 wA] eqn:HA.
    assert (Forall merged (heap (bot wA))) as HwA.
    { eapply (for_each_invariant (fun w => Forall merged (heap (bot w))));
        [| |exact HA]; [|exact IH].
      intros c w r2 w2 Hw Hc. by eapply handle_container_records. }
    destruct r1 as [e|]; [by intros [= _ _ <-]|].
    destruct (for_each remove_bet _ wA) as [r2 wB] eqn:HB. intros [= _ _ <-].
    eapply (for_each_invariant (fun w => Forall merged (heap (bot w))));
      [|exact HwA|exact HB].
    intros c w r3 w3 Hw Hc. by eapply remove_bet_records.
Qed.

Lemma as_records_saved (h : list pydict) (hist : dict loc) :
  (forall k l, (k, l) ∈ hist -> merged (deref h l)) ->
  as_records ((fun kl => (kl.1, VDict (deref h kl.2))) <$> hist)
  = Some ((fun kl => (kl.1, deref h kl.2)) <$> hist).
Proof.
  induction hist as [|[k l] hist IH]; intros Hnd; [done|].
  rewrite !fmap_cons. cbn [as_records fst snd].
  rewrite IH by (intros k' l' Hin; apply (Hnd k' l'); by apply list_elem_of_further).
  rewrite merge_members_merged; [done|]. apply (Hnd k l), list_elem_of_here.
Qed.

Lemma index_from_lookup b (recs : list (string * pydict)) k rec :
  PyDict.get recs k = Some rec ->
  exists l, PyDict.get (index_from b recs) k = Some l
            /\ b <= l /\ recs.*2 !! (l - b) = Some rec.
Proof.
  revert b. induction recs as [|[k0 r0] recs IH]; intros b; [done|].
  cbn [PyDict.get index_from]. destruct (String.eqb_spec k0 k) as [->|Hne].
  - intros [= ->]. exists b. rewrite Nat.sub_diag. done.
  - intros (l & Hl & Hb & Hrec)%(IH (S b)). exists l. split; [done|].
    split; [lia|]. replace (l - b) with (S (l - S b)) by lia. done.
Qed.

Lemma get_saved (h : list pydict) (hist : dict loc) k :
  PyDict.get ((fun kl => (kl.1, deref h kl.2)) <$> hist) k
  = deref h <$> PyDict.get hist k.
Proof.
  induction hist as [|[k0 l0] hist IH]; [done|].
  rewrite fmap_cons. cbn [PyDict.get fst snd]. by destruct (String.eqb k0 k).
Qed.

Lemma filter_keys {A : Type} (P : string -> Prop) `{!forall k, Decision (P k)}
    (d : dict A) :
  filter P (PyDict.keys d) = PyDict.keys (filter (fun kv => P kv.1) d).
Proof.
  unfold PyDict.keys. induction d as [|[k v] d IH]; [done|].
  rewrite fmap_cons, !filter_cons. cbn [fst].
  destruct (decide (P k)); csimpl; by rewrite IH.
Qed.

Lemma length_filter_NoDup (A B : list string) :
  NoDup A -> NoDup B -> (forall k, k ∈ A -> k ∈ B) ->
  length (filter (fun k => k ∈ A) B) = length A.
Proof.
  intros HA HB Hsub. apply Permutation_length, NoDup_Permutation; [by apply NoDup_filter|done|].
  intros k. rewrite list_elem_of_filter. naive_solver.
Qed.

Lemma reload_state st :
  between_cycles st ->
  __init__ (File (Parsed (history_value st)))
  = (inr (mkState (saved_records st).*2
                  (filter (fun kl => is_active (deref (saved_records st).*2 kl.2) = true)
                          (index_from 0 (saved_records st)))
                  (index_from 0 (saved_records st))),
     [LogLoaded
        (length (index_from 0 (saved_records st)))
        (length (filter
                   (fun kl => is_active (deref (saved_records st).*2 kl.2) = true)
                   (index_from 0 (saved_records st))))]).
Proof.
  intros Hst. pose proof (between_cycles_wf _ Hst) as Hwf.
  pose proof (records_merged _ Hst) as Hrec.
  unfold __init__, _load_history, history_value.
  rewrite of_pairs_NoDup.
  - rewrite as_records_saved; [done|].
    intros k l Hin. unfold deref.
    destruct (heap st !! l) as [rec|] eqn:E; [|split; [apply NoDup_nil_2|constructor]].
    cbn. exact (Forall_lookup_1 _ _ _ _ Hrec E).
  - unfold PyDict.keys. rewrite <- list_fmap_compose.
    apply (wf_history_keys _ Hwf).
Qed.

Lemma saved_records_keys st : (saved_records st).*1 = PyDict.keys (history st).
Proof. unfold saved_records, PyDict.keys. by rewrite <- list_fmap_compose. Qed.

Lemma reload_object st k l :
  PyDict.get (history st) k = Some l ->
  exists l', PyDict.get (index_from 0 (saved_records st)) k = Some l'
             /\ deref (saved_records st).*2 l' = deref (heap st) l.
Proof.
  intros Hl.
  destruct (index_from_lookup 0 (saved_records st) k (deref (heap st) l))
    as (l' & Hl' & _ & Hr).
  { unfold saved_records. by rewrite get_saved, Hl. }
  exists l'. split; [done|]. unfold deref at 1.
  rewrite Nat.sub_0_r in Hr. by rewrite Hr.
Qed.

Lemma reload_active st :
  wf st ->
  PyDict.keys
    (filter (fun kl => is_active (deref (saved_records st).*2 kl.2) = true)
            (index_from 0 (saved_records st)))
  = filter (fun k => k ∈ PyDict.keys (active_superquotes st))
           (PyDict.keys (history st)).
Proof.
  intros Hwf.
  rewrite <- (saved_records_keys st), <- (index_from_keys 0 (saved_records st)).
  fold (PyDict.keys (index_from 0 (saved_records st))). rewrite filter_keys.
  f_equal. apply filter_ext_in.
  intros [k l'] Hin. cbn [fst snd].
  assert (NoDup (PyDict.keys (index_from 0 (saved_records st)))) as Hnd.
  { unfold PyDict.keys. rewrite index_from_keys, saved_records_keys.
    apply (wf_history_keys _ Hwf). }
  apply (get_elem _ _ _ Hnd) in Hin.
  assert (k ∈ PyDict.keys (history st)) as Hk.
  { rewrite <- saved_records_keys, <- (index_from_keys 0 (saved_records st)).
    by eapply get_Some_elem. }
  destruct (elem_keys_get _ _ Hk) as [l Hl].
  destruct (reload_object _ _ _ Hl) as (l'' & Hl'' & Hd).
  rewrite Hin in Hl''. injection Hl'' as <-. rewrite Hd.
  apply (wf_flag _ Hwf _ _ Hl).
Qed.

(** X12: nothing is lost over a restart.  When [__init__] is given the
    value [_save_history] dumps, it raises nothing and logs the numbers of
    records and of active bets of the saved bot; the history it builds has
    the same keys in the same order, each with a record equal to the saved
    one, and its Active Set holds the saved active keys, in the order of the
    history. *)
Theorem reload_recovers_history (st : State) :
  between_cycles st ->
  exists st',
    __init__ (File (Parsed (history_value st)))
    = (inr st', [LogLoaded (length (history st)) (length (active_superquotes st))])
    /\ PyDict.keys (history st') = PyDict.keys (history st)
    /\ (forall k l, PyDict.get (history st) k = Some l ->
          exists l', PyDict.get (history st') k = Some l'
                     /\ deref (heap st') l' = deref (heap st) l)
    /\ PyDict.keys (active_superquotes st')
       = filter (fun k => k ∈ PyDict.keys (active_superquotes st))
                (PyDict.keys (history st)).
Proof.
  intros Hst. pose proof (between_cycles_wf _ Hst) as Hwf.
  eexists. split; [|split; [|split]].
  - rewrite (reload_state _ Hst). do 3 f_equal.
    + rewrite <- (length_fmap fst (index_from 0 _)), index_from_keys,
        saved_records_keys.
      unfold PyDict.keys. by rewrite length_fmap.
    + rewrite <- (length_fmap fst (filter _ _)).
      fold (PyDict.keys (A := nat)
              (filter (fun kl => is_active (deref (saved_records st).*2 kl.2) = true)
                      (index_from 0 (saved_records st)))).
      rewrite (reload_active _ Hwf), length_filter_NoDup.
      * unfold PyDict.keys. by rewrite length_fmap.
      * apply (wf_active_keys _ Hwf).
      * apply (wf_history_keys _ Hwf).
      * intros k [l Hl]%elem_keys_get.
        eapply get_Some_elem, (wf_alias _ Hwf), Hl.
  - cbn [history]. unfold PyDict.keys.
    by rewrite index_from_keys, saved_records_keys.
  - cbn [history heap]. intros k l. apply reload_object.
  - cbn [active_superquotes]. by apply reload_active.
Qed.

Lemma reload_recovers_history_witness :
  between_cycles st_ab
  /\ exists st',
       __init__ (File (Parsed (history_value st_ab))) = (inr st', [LogLoaded 1 1])
       /\ PyDict.keys (history st') = [id_ab]
       /\ PyDict.keys (active_superquotes st') = [id_ab].
Proof.
  split; [exact between_cycles_st_ab|].
  destruct (reload_recovers_history st_ab between_cycles_st_ab)
    as (st' & Hinit & Hkeys & _ & Hact).
  exists st'. split; [exact Hinit|]. split; [exact Hkeys|].
  rewrite Hact. vm_compute. reflexivity.
Defined.

(** ** The retry loop when only cycles fail *)

(** X13: failing cycles alone never stop the bot.  When every browser launch
    succeeds, the retry loop is not left, however many cycles fail and
    however many of them in a row, and it sleeps 30 seconds after each
    failure. *)
Theorem cycle_failures_never_exit (oks : list bool) :
  launches_succeed sup_start oks = true ->
  where_ (sup_run sup_start oks).1 <> Exited
  /\ (sup_run sup_start oks).2
     = replicate (length (filter (fun ok => ok = false) oks)) 30.
Proof.
  assert (forall s,
            where_ s = Launching \/ (where_ s = Polling /\ attempt s = 0) ->
            launches_succeed s oks = true ->
            where_ (sup_run s oks).1 <> Exited
            /\ (sup_run s oks).2
               = replicate (length (filter (fun ok => ok = false) oks)) 30) as Hgen;
    [|apply Hgen; by left].
  induction oks as [|ok oks IH]; intros s Hs; cbn [launches_succeed sup_run].
  - intros _. split; [|done]. cbn. by destruct Hs as [->|[-> _]].
  - intros [Hok Hrest]%andb_prop. specialize (IH (sup_step s ok).1).
    assert ((sup_step s ok).1 = mkSupervisor 0 Polling /\ ok = true
                                /\ (sup_step s ok).2 = []
            \/ (sup_step s ok).1 = mkSupervisor 1 Launching /\ ok = false
               /\ (sup_step s ok).2 = [30]) as Hstep.
    { unfold sup_step, on_error in *. destruct s as [a w]. cbn [where_ attempt] in *.
      destruct Hs as [->|[-> ->]].
      - rewrite Hok. by left.
      - destruct ok; [by left|by right]. }
    destruct (sup_step s ok) as [s1 sl1]. cbn [fst snd] in *.
    destruct (sup_run s1 oks) as [s2 sl2]. cbn [fst snd] in *.
    destruct Hstep as [(-> & -> & ->)|(-> & -> & ->)].
    + destruct IH as [Hw ->]; [by right|done|]. split; [done|].
      by rewrite filter_cons_False.
    + destruct IH as [Hw ->]; [by left|done|]. split; [done|].
      by rewrite filter_cons_True.
Qed.

Lemma cycle_failures_never_exit_witness :
  launches_succeed sup_start
    [true; false; true; false; true; false; true; false; true; false; true; false]
  = true
  /\ where_ (sup_run sup_start
               [true; false; true; false; true; false; true; false; true; false;
                true; false]).1 <> Exited
  /\ (sup_run sup_start
        [true; false; true; false; true; false; true; false; true; false;
         true; false]).2 = [30; 30; 30; 30; 30; 30].
Proof.
  split; [reflexivity|].
  exact (cycle_failures_never_exit
           [true; false; true; false; true; false; true; false; true; false;
            true; false] eq_refl).
Defined.

(** ** Configuration *)

Lemma split_comma_cons s : exists p ps, split_comma s = p :: ps.
Proof.
  destruct s as [|c s]; cbn [split_comma]; [by eexists _, _|].
  destruct (Ascii.eqb c ","); [by eexists _, _|].
  destruct (split_comma s); by eexists _, _.
Qed.

Lemma join_split s : join_comma (split_comma s) = s.
Proof.
  induction s as [|c s IH]; [done|]. cbn [split_comma].
  destruct (split_comma_cons s) as (p & ps & Hs). rewrite Hs in *.
  destruct (Ascii.eqb_spec c ",") as [->|Hne].
  - change (String "," (join_comma (p :: ps)) = String "," s). by rewrite IH.
  - rewrite <- IH. destruct ps as [|q ps]; [done|].
    change (String c (p +:+ String "," (join_comma (q :: ps)))
            = String c (p +:+ String "," (join_comma (q :: ps)))). done.
Qed.

Lemma split_no_comma s :
  Forall (fun p => ","%char ∉ list_ascii_of_string p) (split_comma s).
Proof.
  induction s as [|c s IH]; cbn [split_comma].
  - apply Forall_singleton. cbn. apply not_elem_of_nil.
  - destruct (Ascii.eqb_spec c ",") as [->|Hne].
    + constructor; [cbn; apply not_elem_of_nil|done].
    + destruct (split_comma s) as [|p ps].
      * apply Forall_singleton. cbn. rewrite elem_of_cons.
        intros [?|H%elem_of_nil]; done.
      * apply Forall_cons in IH as [Hp Hps]. constructor; [|done].
        cbn. rewrite elem_of_cons. intros [?|?]; done.
Qed.

Lemma split_head s :
  head (split_comma s) = Some EmptyString
  <-> s = EmptyString \/ exists t, s = String ","%char t.
Proof.
  destruct s as [|c s]; cbn [split_comma].
  - split; [by left|done].
  - destruct (Ascii.eqb_spec c ",") as [->|Hne].
    + split; [right; by eexists|done].
    + destruct (split_comma s); cbn; split; try done;
        intros [?|[t [= ? ?]]]; done.
Qed.

(** X14: what [_validate_config] accepts.  It returns normally exactly when
    the token is set and not empty and [TELEGRAM_CHAT_IDS] is set, not empty
    and does not start with a comma; otherwise it raises [ValueError], never
    [IndexError].  Nothing but the first chat id is looked at. *)
Theorem validate_config_accepts (env : Env) :
  ((exists cfg, _validate_config env = inr cfg)
   <-> (exists c t, TELEGRAM_BOT_TOKEN env = Some (String c t))
       /\ (exists c t, TELEGRAM_CHAT_IDS env = Some (String c t) /\ c <> ","%char))
  /\ ((forall cfg, _validate_config env <> inr cfg)
      -> _validate_config env = inl ValueError).
Proof.
  unfold _validate_config. cbn [telegram_token telegram_chat_ids].
  destruct (TELEGRAM_BOT_TOKEN env) as [[|c t]|]; cbn [truthy negb].
  1, 3: split; [|done]; split; [by intros [? ?]|by intros [(? & ? & ?) _]].
  destruct (split_comma_cons (default EmptyString (TELEGRAM_CHAT_IDS env)))
    as (p & ps & Hs).
  pose proof (split_head (default EmptyString (TELEGRAM_CHAT_IDS env))) as Hh.
  rewrite Hs in *. cbn [head] in Hh.
  destruct p as [|c0 p]; cbn [truthy negb].
  - split; [|done]. split; [by intros [? ?]|].
    intros (_ & c1 & t1 & Hids & Hc1). rewrite Hids in Hh. cbn in Hh.
    destruct Hh as [Hh _]. destruct Hh as [?|[t' [= ? ?]]]; done.
  - split; [|intros H; by edestruct H]. split; [|by eexists].
    intros _. split; [by eexists _, _|].
    destruct (TELEGRAM_CHAT_IDS env) as [[|c1 t1]|]; cbn in *; try done.
    exists c1, t1. split; [done|]. intros ->.
    assert (Some (String c0 p) = Some EmptyString) as [=].
    apply Hh. right. by eexists.
Qed.

Lemma validate_config_accepts_witness :
  (forall cfg, _validate_config (mkEnv (Some "123:abc") (Some ",1") None None None
                                   None None false) <> inr cfg)
  /\ _validate_config (mkEnv (Some "123:abc") (Some ",1") None None None
                         None None false) = inl ValueError.
Proof.
  assert (forall cfg, _validate_config (mkEnv (Some "123:abc") (Some ",1") None None
                                          None None None false) <> inr cfg) as H
    by (intros cfg; vm_compute; discriminate).
  split; [exact H|].
  exact (proj2 (validate_config_accepts _) H).
Defined.

(** X15: the chat ids of an accepted configuration are the pieces of
    [TELEGRAM_CHAT_IDS] between its commas, as they are: joined with commas
    they give the variable back, and none of them contains a comma.  Empty
    and blank pieces after the first are chat ids too. *)
Theorem chat_ids_are_the_pieces (env : Env) (cfg : Config) :
  _validate_config env = inr cfg ->
  join_comma (telegram_chat_ids cfg) = default EmptyString (TELEGRAM_CHAT_IDS env)
  /\ Forall (fun p => ","%char ∉ list_ascii_of_string p) (telegram_chat_ids cfg).
Proof.
  unfold _validate_config. cbn [telegram_token telegram_chat_ids].
  destruct (negb _); [done|]. destruct (split_comma _) as [|p ps] eqn:Hs; [done|].
  destruct (negb _); [done|]. intros [= <-]. cbn [telegram_chat_ids].
  rewrite <- Hs. split; [apply join_split|apply split_no_comma].
Qed.

Lemma chat_ids_are_the_pieces_witness :
  exists cfg,
    _validate_config env_blank_id = inr cfg
    /\ telegram_chat_ids cfg = ["1"; ""; " 2"]
    /\ join_comma (telegram_chat_ids cfg) = "1,, 2".
Proof.
  eexists. split; [vm_compute; reflexivity|]. split; [reflexivity|].
  exact (proj1 (chat_ids_are_the_pieces env_blank_id _ eq_refl)).
Defined.

(** ** A failed cycle, then a restart *)

Lemma removal_error bids w e w' :
  for_each remove_bet bids w = (Some e, w') -> exists k, e = KeyError k.
Proof.
  revert w. induction bids as [|bid bids IH]; intros w; cbn [for_each]; [done|].
  destruct (remove_bet bid w) as [[e1|] w1] eqn:Hb; [|by apply IH].
  intros [= <- _]. revert Hb. unfold remove_bet.
  repeat (match goal with
          | |- context [match ?x with _ => _ end] => destruct x
          end); intros [= <- _]; by eexists.
Qed.





(** ** Repeated keys in the history file *)

(** [json.load] keeps the last value of a repeated key at every depth: in
    the record as well as in an object inside one of its values. *)
Example load_merges_nested_keys :
  __init__ (File (Parsed (VDict
     [ ("k", VDict [ ("active", VBool false); ("active", VBool true);
                     ("x", VDict [ ("a", VNum "1"); ("a", VNum "2") ]) ]) ])))
  = (inr (mkState [ [ ("active", VBool true); ("x", VDict [ ("a", VNum "2") ]) ] ]
                  [ ("k", 0) ] [ ("k", 0) ]),
     [LogLoaded 1 1]).
Proof. reflexivity. Qed.
